(** * DJQ: session-based song request queue

    A shallow embedding of the request handlers of the multi-tenant
    server (the session-isolation revision) and of the enrichment client
    of the OpenAI revision, together with the properties of the
    specification that concern them.

    Conventions of the embedding:
    - a JavaScript string is a [string]: a sequence of code units, here
      restricted to the range 0..255;
    - a request field that may be missing ([undefined] or [null]) is an
      [option]; [!x] on such a field is [negb (truthy x)];
    - the SQLite database is a record of tables, the [sessions] table a
      finite map keyed by its primary key, the [submissions] table a list
      of rows in insertion order; the engine itself does not fail: a
      statement reports an error only when a constraint of the schema is
      violated;
    - a number is an integer ([Z]) where the code uses it as one, and a
      rational ([Q]) where it is a fraction ([Math.random()], a tempo):
      products and [Math.floor] are exact;
    - everything outside the process (the random source, the clock, the
      HTTP responses of the music provider) is read from an oracle
      [Env], indexed by counters kept in the state;
    - a handler runs from the arrival of its request to its response
      without interleaving (requests are sequential). *)

From Stdlib Require Import QArith Qround Ascii String.
From stdpp Require Import base option list sorting strings pretty gmap fin_maps.
From Equations Require Import Equations.

Local Open Scope string_scope.
Local Open Scope Z_scope.

(** ** JavaScript values and strings *)

Module Js.

(** Truthiness of a string that may be missing: [undefined], [null] and
    the empty string are falsy. *)
Definition truthy (x : option string) : bool :=
  match x with
  | None => false
  | Some s => negb (String.eqb s "")
  end.

(** [x || null] on a string that may be missing. *)
Definition or_null (x : option string) : option string :=
  if truthy x then x else None.

(** Truthiness of a number that may be missing ([null], [undefined] and
    [NaN] are [None]); [0] is falsy. *)
Definition truthy_num (x : option Z) : bool :=
  match x with
  | None => false
  | Some n => negb (n =? 0)
  end.

Definition code (c : ascii) : N := N_of_ascii c.

Definition in_range (lo hi : N) (c : ascii) : bool :=
  ((lo <=? code c) && (code c <=? hi))%N.

Definition is_digit : ascii -> bool := in_range 48 57.
Definition is_upper : ascii -> bool := in_range 65 90.
Definition is_lower : ascii -> bool := in_range 97 122.
Definition is_char (x c : ascii) : bool := Ascii.eqb x c.

(** White space and line terminators removed by [String.prototype.trim],
    among the code units below 256: TAB, LF, VT, FF, CR, SP, NBSP. *)
Definition is_space (c : ascii) : bool :=
  in_range 9 13 c || (code c =? 32)%N || (code c =? 160)%N.

Fixpoint trimStart (s : string) : string :=
  match s with
  | EmptyString => EmptyString
  | String c s' => if is_space c then trimStart s' else s
  end.

Fixpoint trimEnd (s : string) : string :=
  match s with
  | EmptyString => EmptyString
  | String c s' =>
      let t := trimEnd s' in
      if is_space c && String.eqb t "" then EmptyString else String c t
  end.

Definition trim (s : string) : string := trimEnd (trimStart s).

(** [s.charAt(i)]: the empty string when [i] is out of range. *)
Definition charAt (s : string) (i : Z) : string :=
  if i <? 0 then ""
  else match String.get (Z.to_nat i) s with
       | Some c => String c EmptyString
       | None => ""
       end.

(** [a[i]] on an array: [undefined] ([None]) out of range. *)
Definition index {A} (a : list A) (i : Z) : option A :=
  if i <? 0 then None else a !! Z.to_nat i.

(** A number inside a template literal; [undefined] prints as itself. *)
Definition template_num (x : option Z) : string :=
  match x with
  | Some n => pretty n
  | None => "undefined"
  end.

Definition template_str (x : option string) : string :=
  match x with
  | Some s => s
  | None => "undefined"
  end.

(** An anchored regular expression [^c1 c2 ... cn$] made of one
    character class per position, tested without the multiline flag:
    the string matches when it has exactly [n] code units, the i-th in
    the i-th class. *)
Fixpoint test_classes (cs : list (ascii -> bool)) (s : string) : bool :=
  match cs, s with
  | [], EmptyString => true
  | c :: cs', String x s' => c x && test_classes cs' s'
  | _, _ => false
  end.

(** [s.replace(a, b)] with string arguments: the first occurrence of
    the code unit [a] only. *)
Fixpoint replace_first (a : ascii) (b : string) (s : string) : string :=
  match s with
  | EmptyString => EmptyString
  | String c s' => if Ascii.eqb c a then b ++ s' else String c (replace_first a b s')
  end.

End Js.

(** ** Key converter (multi-tenant server) *)

Definition camelotMajor : list Z := [8; 3; 10; 5; 12; 7; 2; 9; 4; 11; 6; 1].
Definition camelotMinor : list Z := [5; 12; 7; 2; 9; 4; 11; 6; 1; 8; 3; 10].

(** [convertToCamelotKey(key, mode)]; [None] is [null]. *)
Definition convertToCamelotKey (key mode : Z) : option string :=
  if (key =? -1) || (mode =? -1) then None
  else if mode =? 1
       then Some (Js.template_num (Js.index camelotMajor key) ++ "A")
       else Some (Js.template_num (Js.index camelotMinor key) ++ "B").

(** The 24 labels of the wheel as the source comments list them. *)
Definition camelot_labels : list string :=
  ["8A"; "3A"; "10A"; "5A"; "12A"; "7A"; "2A"; "9A"; "4A"; "11A"; "6A"; "1A";
   "5B"; "12B"; "7B"; "2B"; "9B"; "4B"; "11B"; "6B"; "1B"; "8B"; "3B"; "10B"].


(** ** The process state and the outside world *)

(** Rows of the two tables, with the columns of the schema. *)
Module Sessions.
Record row : Type := Row {
  id : string;
  name : string;
  created_at : string;
  is_active : Z;
  welcome_message : option string;
  subtitle_message : option string;
  background : option string
}.
End Sessions.

Module Submissions.
Record row : Type := Row {
  id : Z;
  session_id : string;
  song_name : string;
  artist : string;
  user_name : option string;
  original_song_name : option string;
  original_artist : option string;
  bpm : option Z;
  key_camelot : option string;
  key_regular : option string;
  spotify_fetched : Z;
  created_at : string
}.

Definition with_created_at (t : string) (r : row) : row :=
  Row (id r) (session_id r) (song_name r) (artist r) (user_name r)
      (original_song_name r) (original_artist r) (bpm r) (key_camelot r)
      (key_regular r) (spotify_fetched r) t.
End Submissions.

(** The database: [sessions] keyed by its primary key, [submissions] in
    insertion order, [seq] the largest row id ever handed out
    (AUTOINCREMENT). *)
Record DB : Type := MkDB {
  sessions : gmap string Sessions.row;
  submissions : list Submissions.row;
  seq : Z
}.

(** The module-level variables of the server and the counters that index
    the oracle. *)
Record World : Type := MkWorld {
  db : DB;
  spotifyAccessToken : option string;
  tokenExpiry : option Z;
  tick : nat;
  draws : nat
}.

(** What an HTTP call to the provider can do: fail (network error or a
    status outside 2xx, [axios] rejects), answer with a body that lacks
    the fields the caller reads (reading them raises a TypeError), or
    answer with a body of the expected shape. *)
Inductive Http (A : Type) : Type :=
| NetworkError (message : string)
| Malformed
| Body (data : A).
Arguments NetworkError {A} message.
Arguments Malformed {A}.
Arguments Body {A} data.

Record TokenBody : Type := {
  access_token : option string;
  expires_in : option Z
}.

Record Track : Type := {
  track_name : string;
  track_artists : list string;
  track_id : string;
  track_popularity : Z;
  track_preview_url : option string
}.

Record Features : Type := {
  features_key : Z;
  features_mode : Z;
  features_tempo : option Q
}.

(** What the completion endpoint of the OpenAI revision can do. *)
Inductive Completion : Type :=
| ApiError (message : string)
| NoChoice
| Content (content : string).

(** The oracle. The counters of [World] say which answer comes next. *)
Record Env : Type := {
  Math_random : nat -> Q;
  Date_now : nat -> Z;
  Date_toISOString : nat -> string;
  CURRENT_TIMESTAMP : nat -> string;
  token_endpoint : nat -> Http TokenBody;
  search_endpoint : string -> nat -> Http (list Track);
  features_endpoint : string -> nat -> Http Features;
  chat_completions : string -> string -> nat -> Completion
}.

(** ** Computations that may throw *)

Inductive Outcome (A : Type) : Type :=
| Returned (a : A)
| Thrown (error : string).
Arguments Returned {A} a.
Arguments Thrown {A} error.

Definition M (A : Type) : Type := World -> Outcome A * World.

Definition ret {A} (a : A) : M A := fun w => (Returned a, w).

Definition throw {A} (error : string) : M A := fun w => (Thrown error, w).

Definition bind {A B} (c : M A) (k : A -> M B) : M B :=
  fun w =>
    match c w with
    | (Returned a, w') => k a w'
    | (Thrown e, w') => (Thrown e, w')
    end.

(** [try { body } catch (error) { handler }] *)
Definition try_catch {A} (body : M A) (handler : string -> M A) : M A :=
  fun w =>
    match body w with
    | (Returned a, w') => (Returned a, w')
    | (Thrown e, w') => handler e w'
    end.

Definition gets {A} (f : World -> A) : M A := fun w => (Returned (f w), w).

Definition modify (f : World -> World) : M unit := fun w => (Returned tt, f w).

Notation "x <- c ;; k" := (bind c (fun x => k))
  (at level 100, c at next level, right associativity).
Notation "c ;;; k" := (bind c (fun _ => k))
  (at level 100, right associativity).

Definition set_db (d : DB) (w : World) : World :=
  MkWorld d (spotifyAccessToken w) (tokenExpiry w) (tick w) (draws w).

Definition set_token (t : option string) (x : option Z) (w : World) : World :=
  MkWorld (db w) t x (tick w) (draws w).

Definition next_tick (w : World) : World :=
  MkWorld (db w) (spotifyAccessToken w) (tokenExpiry w) (S (tick w)) (draws w).

Definition next_draw (w : World) : World :=
  MkWorld (db w) (spotifyAccessToken w) (tokenExpiry w) (tick w) (S (draws w)).

(** An awaited HTTP call: the answer of the moment, and time passes. *)
Definition await {A} (endpoint : nat -> Http A) : M A :=
  r <- gets (fun w => endpoint (tick w)) ;;
  modify next_tick ;;;
  match r with
  | NetworkError m => throw m
  | Malformed => throw "TypeError"
  | Body a => ret a
  end.

Definition Date_now_ (e : Env) : M Z := gets (fun w => Date_now e (tick w)).

Definition Math_random_ (e : Env) : M Q :=
  r <- gets (fun w => Math_random e (draws w)) ;;
  modify next_draw ;;;
  ret r.

Definition Math_floor (x : Q) : Z := Qfloor x.

(** [Math.round]: the nearest integer, halves towards plus infinity. *)
Definition Math_round (x : Q) : Z := Qfloor (x + (1 # 2))%Q.

(** ** Spotify client (multi-tenant server) *)

Module SpotifyData.
Record t : Type := Make {
  spotify_song_name : string;
  spotify_artist : string;
  spotify_id : string;
  spotify_popularity : Z;
  spotify_preview_url : option string
}.
End SpotifyData.

Module AudioFeatures.
Record t : Type := Make {
  bpm : option Z;
  key_regular : option string;
  key_camelot : option string
}.
End AudioFeatures.

Module Enhanced.
Record t : Type := Make {
  corrected_song_name : string;
  corrected_artist : string;
  bpm : option Z;
  key_camelot : option string;
  key_regular : option string;
  spotify_verified : bool;
  spotify_data : option SpotifyData.t
}.

(** The record both fallback branches of [enhanceSongData] build. *)
Definition original (songName artist : string) : t :=
  Make songName artist None None None false None.
End Enhanced.

Definition getSpotifyAccessToken (e : Env) : M (option string) :=
  token <- gets spotifyAccessToken ;;
  expiry <- gets tokenExpiry ;;
  now <- Date_now_ e ;;
  if Js.truthy token && Js.truthy_num expiry
     && match expiry with Some x => now <? x | None => false end
  then ret token
  else
    try_catch
      (response <- await (token_endpoint e) ;;
       now' <- Date_now_ e ;;
       modify (set_token (access_token response)
                 ((fun s => now' + s * 1000 - 60000) <$> expires_in response)) ;;;
       gets spotifyAccessToken)
      (fun _ => ret None).

Definition verifyWithSpotify (e : Env) (songName artistName : string)
  : M (option SpotifyData.t) :=
  try_catch
    (token <- getSpotifyAccessToken e ;;
     if negb (Js.truthy token) then ret None
     else
       let query := "track:" ++ songName ++ " artist:" ++ artistName in
       items <- await (search_endpoint e query) ;;
       match items with
       | track :: _ =>
           match track_artists track with
           | first_artist :: _ =>
               ret (Some (SpotifyData.Make (track_name track) first_artist
                            (track_id track) (track_popularity track)
                            (track_preview_url track)))
           | [] => throw "TypeError"
           end
       | [] => ret None
       end)
    (fun _ => ret None).

Definition keyNames : list string :=
  ["C"; "C#"; "D"; "D#"; "E"; "F"; "F#"; "G"; "G#"; "A"; "A#"; "B"].
Definition modeNames : list string := ["minor"; "major"].

Definition getSpotifyAudioFeatures (e : Env) (trackId : string)
  : M (option AudioFeatures.t) :=
  try_catch
    (token <- getSpotifyAccessToken e ;;
     if negb (Js.truthy token) then ret None
     else
       features <- await (features_endpoint e trackId) ;;
       let key := features_key features in
       let mode := features_mode features in
       let regularKey :=
         if negb (key =? -1) && negb (mode =? -1)
         then Some (Js.template_str (Js.index keyNames key) ++ " "
                    ++ Js.template_str (Js.index modeNames mode))
         else None in
       let camelotKey := convertToCamelotKey key mode in
       ret (Some (AudioFeatures.Make
                    match features_tempo features with
                    | Some tempo =>
                        if Qeq_bool tempo 0 then None else Some (Math_round tempo)
                    | None => None
                    end
                    regularKey camelotKey)))
    (fun _ => ret None).

Definition enhanceSongData (e : Env) (songName artist : string) : M Enhanced.t :=
  try_catch
    (spotifyData <- verifyWithSpotify e songName artist ;;
     match spotifyData with
     | None => ret (Enhanced.original songName artist)
     | Some d =>
         audioFeatures <- getSpotifyAudioFeatures e (SpotifyData.spotify_id d) ;;
         ret (Enhanced.Make
                (SpotifyData.spotify_song_name d)
                (SpotifyData.spotify_artist d)
                match audioFeatures with Some af => AudioFeatures.bpm af | None => None end
                match audioFeatures with
                | Some af => AudioFeatures.key_camelot af
                | None => None
                end
                match audioFeatures with
                | Some af => AudioFeatures.key_regular af
                | None => None
                end
                true (Some d))
     end)
    (fun _ => ret (Enhanced.original songName artist)).

(** ** Enrichment client of the OpenAI revision (server.js) *)

Module OpenAI.

#[local] Set Warnings "-register-all".

(** A decoded JSON value. An object lists its own properties, each key
    once. *)
Inductive Json : Type :=
| JNull
| JBool (b : bool)
| JNum (n : Q)
| JStr (s : string)
| JArr (items : list Json)
| JObj (fields : list (string * Json)).

Definition truthy (v : Json) : bool :=
  match v with
  | JNull => false
  | JBool b => b
  | JNum n => negb (Qeq_bool n 0)
  | JStr s => negb (String.eqb s "")
  | JArr _ | JObj _ => true
  end.

Fixpoint assoc (k : string) (fields : list (string * Json)) : option Json :=
  match fields with
  | [] => None
  | (k', v) :: rest => if String.eqb k k' then Some v else assoc k rest
  end.

(** [v.k] for a key that no prototype defines: a TypeError on [null],
    [undefined] ([None]) on a value without that property. *)
Definition prop (v : Json) (k : string) : M (option Json) :=
  match v with
  | JNull => throw "TypeError"
  | JObj fields => ret (assoc k fields)
  | _ => ret None
  end.

(** [x || d] *)
Definition or_else (x : option Json) (d : Json) : Json :=
  match x with
  | Some v => if truthy v then v else d
  | None => d
  end.

(** The match of [/\{[\s\S]*\}/]: from the first opening brace to the
    last closing brace after it. *)
Fixpoint from_first_open (s : string) : option string :=
  match s with
  | EmptyString => None
  | String c s' => if Ascii.eqb c "{" then Some s else from_first_open s'
  end.

Fixpoint through_last_close (s : string) : option string :=
  match s with
  | EmptyString => None
  | String c s' =>
      match through_last_close s' with
      | Some t => Some (String c t)
      | None => if Ascii.eqb c "}" then Some (String c EmptyString) else None
      end
  end.

Definition match_braces (s : string) : option string :=
  match from_first_open s with
  | Some t => through_last_close t
  | None => None
  end.

Record Enhanced : Type := {
  corrected_song_name : Json;
  corrected_artist : Json;
  bpm : Json;
  key_camelot : Json;
  key_regular : Json
}.

Definition original (songName artist : string) : Enhanced :=
  Build_Enhanced (JStr songName) (JStr artist) JNull JNull JNull.

Definition create_completion (e : Env) (songName artist : string) : M string :=
  r <- gets (fun w => chat_completions e songName artist (tick w)) ;;
  modify next_tick ;;;
  match r with
  | ApiError m => throw m
  | NoChoice => throw "TypeError"
  | Content c => ret c
  end.

Section Parse.
(** [JSON.parse] of the runtime; [None] is a SyntaxError. *)
Variable JSON_parse : string -> option Json.

Definition enhanceSongData (e : Env) (songName artist : string) : M Enhanced :=
  try_catch
    (content <- create_completion e songName artist ;;
     let response := Js.trim content in
     let jsonResponse :=
       match match_braces response with
       | Some m => m
       | None => response
       end in
     match JSON_parse jsonResponse with
     | None => throw "SyntaxError"
     | Some enhancedData =>
         n <- prop enhancedData "corrected_song_name" ;;
         a <- prop enhancedData "corrected_artist" ;;
         b <- prop enhancedData "bpm" ;;
         kc <- prop enhancedData "key_camelot" ;;
         kr <- prop enhancedData "key_regular" ;;
         ret (Build_Enhanced (or_else n (JStr songName))
                (or_else a (JStr artist))
                (or_else b JNull) (or_else kc JNull) (or_else kr JNull))
     end)
    (fun _ => ret (original songName artist)).
End Parse.

End OpenAI.

(** ** The database calls of the multi-tenant server

    Each definition is one SQL statement of the source run against the
    model; [Err] is the [err] argument of the sqlite3 callback. *)

Inductive DbResult (A : Type) : Type :=
| Ok (a : A)
| Err (message : string).
Arguments Ok {A} a.
Arguments Err {A} message.

(** [SELECT * FROM sessions WHERE id = ?] (also used with a column list) *)
Definition select_session (id : string) : M (DbResult (option Sessions.row)) :=
  gets (fun w => Ok (sessions (db w) !! id)).

(** [INSERT INTO sessions (id, name, welcome_message, subtitle_message,
    background) VALUES (?, ?, ?, ?, ?)]; [created_at] and [is_active] take
    their defaults, the primary key must be fresh. *)
Definition insert_session (e : Env)
    (id name welcome_message subtitle_message background : string)
  : M (DbResult unit) :=
  fun w =>
    match sessions (db w) !! id with
    | Some _ =>
        (Returned (Err "SQLITE_CONSTRAINT: UNIQUE constraint failed: sessions.id"), w)
    | None =>
        let r := Sessions.Row id name (CURRENT_TIMESTAMP e (tick w)) 1
                   (Some welcome_message) (Some subtitle_message) (Some background) in
        (Returned (Ok tt),
         next_tick (set_db (MkDB (<[id := r]> (sessions (db w)))
                              (submissions (db w)) (seq (db w))) w))
    end.

(** [SELECT * FROM sessions WHERE is_active = 1 ORDER BY created_at DESC] *)
Definition newer_session (a b : Sessions.row) : Prop :=
  String.leb (Sessions.created_at b) (Sessions.created_at a).

Definition select_active_sessions : M (DbResult (list Sessions.row)) :=
  gets (fun w =>
    Ok (merge_sort newer_session
          (filter (fun r => Sessions.is_active r = 1)
                  (snd <$> map_to_list (sessions (db w)))))).

(** [UPDATE sessions SET welcome_message = ?, subtitle_message = ?,
    background = ? WHERE id = ?] *)
Definition set_settings (welcome_message subtitle_message background : option string)
    (r : Sessions.row) : Sessions.row :=
  Sessions.Row (Sessions.id r) (Sessions.name r) (Sessions.created_at r)
    (Sessions.is_active r) welcome_message subtitle_message background.

Definition update_settings
    (welcome_message subtitle_message background : option string) (id : string)
  : M (DbResult unit) :=
  modify (fun w =>
    set_db (MkDB (alter (set_settings welcome_message subtitle_message background)
                        id (sessions (db w)))
                 (submissions (db w)) (seq (db w))) w) ;;;
  ret (Ok tt).

(** [INSERT INTO submissions (session_id, song_name, artist, user_name,
    original_song_name, original_artist, bpm, key_camelot, key_regular,
    spotify_fetched) VALUES (...)]; the result is [this.lastID]. *)
Definition insert_submission (e : Env)
    (session_id song_name artist : string) (user_name : option string)
    (original_song_name original_artist : string)
    (bpm : option Z) (key_camelot key_regular : option string) (spotify_fetched : Z)
  : M (DbResult Z) :=
  fun w =>
    let lastID := seq (db w) + 1 in
    let r := Submissions.Row lastID session_id song_name artist user_name
               (Some original_song_name) (Some original_artist)
               bpm key_camelot key_regular spotify_fetched
               (CURRENT_TIMESTAMP e (tick w)) in
    (Returned (Ok lastID),
     next_tick (set_db (MkDB (sessions (db w)) (submissions (db w) ++ [r]) lastID) w)).

(** [SELECT * FROM submissions WHERE session_id = ? ORDER BY created_at
    DESC]; the order among rows of one second is the engine's choice,
    here that of a merge sort. *)
Definition newer_submission (a b : Submissions.row) : Prop :=
  String.leb (Submissions.created_at b) (Submissions.created_at a).

Definition select_submissions (session_id : string)
  : M (DbResult (list Submissions.row)) :=
  gets (fun w =>
    Ok (merge_sort newer_submission
          (filter (fun r => Submissions.session_id r = session_id)
                  (submissions (db w))))).

(** [DELETE FROM submissions WHERE session_id = ?]; the result is
    [this.changes]. *)
Definition delete_submissions (session_id : string) : M (DbResult Z) :=
  fun w =>
    let gone := filter (fun r => Submissions.session_id r = session_id)
                       (submissions (db w)) in
    let kept := filter (fun r => Submissions.session_id r <> session_id)
                       (submissions (db w)) in
    (Returned (Ok (Z.of_nat (length gone))),
     set_db (MkDB (sessions (db w)) kept (seq (db w))) w).

(** ** Session identifiers *)

Definition chars : string := "ABCDEFGHIJKLMNOPQRSTUVWXYZ0123456789".

(** The body of the [for] loop of [generateShortCode], [n] rounds to go. *)
Fixpoint generateShortCode_loop (e : Env) (n : nat) (code : string) : M string :=
  match n with
  | O => ret code
  | S n' =>
      r <- Math_random_ e ;;
      generateShortCode_loop e n'
        (code ++ Js.charAt chars
                   (Math_floor (r * inject_Z (Z.of_nat (String.length chars)))))
  end.

Definition generateShortCode (e : Env) : M string :=
  generateShortCode_loop e 4 "".

Definition maxAttempts : nat := 100.

(** [tryGenerate] of [generateSessionId], [attempts] being the counter
    before the call; the result is the argument given to [callback]. *)
Equations? tryGenerate (e : Env) (attempts : nat) (w : World)
  : Outcome (option string) * World by wf (maxAttempts + 1 - attempts)%nat lt :=
  tryGenerate e attempts w with le_lt_dec (S attempts) maxAttempts := {
    | right _ => (Returned None, w)
    | left _ with generateShortCode e w := {
        | (Thrown x, w1) => (Thrown x, w1)
        | (Returned sessionId, w1) with select_session sessionId w1 := {
            | (Thrown x, w2) => (Thrown x, w2)
            | (Returned (Err _), w2) => (Returned None, w2)
            | (Returned (Ok (Some _)), w2) => tryGenerate e (S attempts) w2
            | (Returned (Ok None), w2) => (Returned (Some sessionId), w2) } } }.
Proof. unfold maxAttempts in *. lia. Qed.

Definition generateSessionId (e : Env) : M (option string) := tryGenerate e 0.

(** ** Requests and responses *)

Inductive Payload : Type :=
| ErrorBody (error : string)
| SessionCreated (id name createdAt : string)
| SessionFound (session : Sessions.row)
| SessionList (sessions : list Sessions.row)
| SubmissionSaved (message : string) (id : Z)
| SubmissionRows (rows : list Submissions.row)
| Cleared (message : string) (deletedCount : Z)
| Success
| Settings (welcomeMessage : option string) (subtitleMessage background : string).

(** [res.status(n).json(body)] ([res.json(body)] has status 200),
    [res.redirect(location)] and [res.status(n).send(text)]. *)
Inductive Response : Type :=
| Json (status : Z) (body : Payload)
| Redirect (location : string)
| Send (status : Z) (text : string).

Inductive Request : Type :=
| PostSessions (name : option string)
| GetSession (sessionId : string)
| GetSessions
| PostSubmit (songName artist userName sessionId spotifyId : option string)
| GetSubmissions (sessionId : option string)
| DeleteClear (sessionId : option string)
| PostUpdateSettings (sessionId welcomeMessage subtitleMessage background : option string)
| GetSettings (sessionId : option string)
| GetCode (sessionCode : string).

(** The string behind a field already known to be truthy. *)
Definition str (x : option string) : string := default "" x.

(** ** Handlers of the multi-tenant server *)

(** [app.post('/api/sessions')] *)
Definition post_sessions (e : Env) (name : option string) : M Response :=
  if negb (Js.truthy name) || String.eqb (Js.trim (str name)) ""
  then ret (Json 400 (ErrorBody "Session name is required"))
  else
    sessionId <- generateSessionId e ;;
    if negb (Js.truthy sessionId)
    then ret (Json 500 (ErrorBody "Failed to generate unique session ID"))
    else
      let sessionName := Js.trim (str name) in
      r <- insert_session e (str sessionId) sessionName sessionName
             "Submit your song below" "#000" ;;
      match r with
      | Err _ => ret (Json 500 (ErrorBody "Failed to create session"))
      | Ok _ =>
          createdAt <- gets (fun w => Date_toISOString e (tick w)) ;;
          ret (Json 200 (SessionCreated (str sessionId) sessionName createdAt))
      end.

(** [app.get('/api/sessions/:sessionId')] *)
Definition get_session (sessionId : string) : M Response :=
  r <- select_session sessionId ;;
  match r with
  | Err _ => ret (Json 500 (ErrorBody "Failed to get session"))
  | Ok None => ret (Json 404 (ErrorBody "Session not found"))
  | Ok (Some session) => ret (Json 200 (SessionFound session))
  end.

(** [app.get('/api/sessions')] *)
Definition get_sessions : M Response :=
  r <- select_active_sessions ;;
  match r with
  | Err _ => ret (Json 500 (ErrorBody "Failed to get sessions"))
  | Ok rows => ret (Json 200 (SessionList rows))
  end.

(** [app.post('/api/submit')] *)
Definition post_submit (e : Env)
    (songName artist userName sessionId spotifyId : option string) : M Response :=
  if negb (Js.truthy songName) || negb (Js.truthy artist)
  then ret (Json 400 (ErrorBody "Song name and artist are required"))
  else if negb (Js.truthy sessionId)
  then ret (Json 400 (ErrorBody "Session ID is required"))
  else
    s <- select_session (str sessionId) ;;
    match s with
    | Err _ => ret (Json 500 (ErrorBody "Failed to verify session"))
    | Ok None => ret (Json 404 (ErrorBody "Session not found"))
    | Ok (Some _) =>
        f <- (if Js.truthy spotifyId
              then
                try_catch
                  (audioFeatures <- getSpotifyAudioFeatures e (str spotifyId) ;;
                   match audioFeatures with
                   | Some af =>
                       ret (AudioFeatures.bpm af, AudioFeatures.key_camelot af,
                            AudioFeatures.key_regular af)
                   | None => ret (None, None, None)
                   end)
                  (fun _ => ret (None, None, None))
              else ret (None, None, None)) ;;
        let '(bpm, keyCamelot, keyRegular) := f in
        let spotifyFetched := if Js.truthy spotifyId then 1 else 0 in
        r <- insert_submission e (str sessionId) (str songName) (str artist)
               (Js.or_null userName) (str songName) (str artist)
               bpm keyCamelot keyRegular spotifyFetched ;;
        match r with
        | Err _ => ret (Json 500 (ErrorBody "Failed to save submission"))
        | Ok lastID =>
            ret (Json 200 (SubmissionSaved "Submission saved successfully" lastID))
        end
    end.

(** [/^\d{4}-\d{2}-\d{2} \d{2}:\d{2}:\d{2}$/] *)
Definition sqlite_datetime : list (ascii -> bool) :=
  let d := Js.is_digit in
  [d; d; d; d; Js.is_char "-"; d; d; Js.is_char "-"; d; d; Js.is_char " ";
   d; d; Js.is_char ":"; d; d; Js.is_char ":"; d; d].

(** The function mapped over the rows by [app.get('/api/submissions')]. *)
Definition format_row (row : Submissions.row) : Submissions.row :=
  if Js.truthy (Some (Submissions.created_at row))
  then
    let sqliteDate := Js.trim (Submissions.created_at row) in
    if Js.test_classes sqlite_datetime sqliteDate
    then Submissions.with_created_at
           (Js.replace_first " " "T" sqliteDate ++ ".000Z") row
    else row
  else row.

(** [app.get('/api/submissions')] *)
Definition get_submissions (sessionId : option string) : M Response :=
  if negb (Js.truthy sessionId)
  then ret (Json 400 (ErrorBody "Session ID is required"))
  else
    s <- select_session (str sessionId) ;;
    match s with
    | Err _ => ret (Json 500 (ErrorBody "Failed to fetch submissions"))
    | Ok None => ret (Json 404 (ErrorBody "Session not found"))
    | Ok (Some _) =>
        r <- select_submissions (str sessionId) ;;
        match r with
        | Err _ => ret (Json 500 (ErrorBody "Failed to fetch submissions"))
        | Ok rows => ret (Json 200 (SubmissionRows (format_row <$> rows)))
        end
    end.

(** [app.delete('/api/clear')] *)
Definition delete_clear (sessionId : option string) : M Response :=
  if negb (Js.truthy sessionId)
  then ret (Json 400 (ErrorBody "Session ID is required"))
  else
    r <- delete_submissions (str sessionId) ;;
    match r with
    | Err _ => ret (Json 500 (ErrorBody "Failed to clear submissions"))
    | Ok changes =>
        ret (Json 200 (Cleared ("Cleared " ++ pretty changes ++ " submissions") changes))
    end.

(** [app.post('/api/update-settings')] *)
Definition post_update_settings
    (sessionId welcomeMessage subtitleMessage background : option string) : M Response :=
  if negb (Js.truthy sessionId)
  then ret (Json 400 (ErrorBody "Session ID is required"))
  else
    r <- update_settings (Js.or_null welcomeMessage) (Js.or_null subtitleMessage)
           (Js.or_null background) (str sessionId) ;;
    match r with
    | Err _ => ret (Json 500 (ErrorBody "Failed to update settings"))
    | Ok _ => ret (Json 200 Success)
    end.

(** [(x && x.trim() !== '') ? x : d] *)
Definition set_or (x : option string) (d : string) : string :=
  if Js.truthy x && negb (String.eqb (Js.trim (str x)) "") then str x else d.

(** [app.get('/api/settings')] *)
Definition get_settings (sessionId : option string) : M Response :=
  if negb (Js.truthy sessionId)
  then ret (Json 200 (Settings None "Submit your song below" "#000"))
  else
    r <- select_session (str sessionId) ;;
    match r with
    | Err _ => ret (Json 500 (ErrorBody "Failed to fetch settings"))
    | Ok None => ret (Json 404 (ErrorBody "Session not found"))
    | Ok (Some row) =>
        let welcomeMessage := set_or (Sessions.welcome_message row) (Sessions.name row) in
        let background := set_or (Sessions.background row) "#000" in
        let subtitleMessage :=
          set_or (Sessions.subtitle_message row) "Submit your song below" in
        ret (Json 200 (Settings (Some welcomeMessage) subtitleMessage background))
    end.

(** [/^[A-Z0-9]{4}$/] and the same with the [i] flag, under which a
    code unit matches the class when its upper-case form does. *)
Definition code_class (c : ascii) : bool := Js.is_upper c || Js.is_digit c.
Definition code_class_i (c : ascii) : bool :=
  Js.is_upper c || Js.is_lower c || Js.is_digit c.

Definition session_code : list (ascii -> bool) := replicate 4 code_class.
Definition session_code_i : list (ascii -> bool) := replicate 4 code_class_i.

(** [app.get('/:sessionCode')] *)
Definition get_code (sessionCode : string) : M Response :=
  if Js.test_classes session_code_i sessionCode
  then ret (Redirect ("/session/" ++ sessionCode))
  else ret (Send 404 "Session not found").

(** The router, for the routes above. *)
Definition handle (e : Env) (r : Request) : M Response :=
  match r with
  | PostSessions name => post_sessions e name
  | GetSession sessionId => get_session sessionId
  | GetSessions => get_sessions
  | PostSubmit songName artist userName sessionId spotifyId =>
      post_submit e songName artist userName sessionId spotifyId
  | GetSubmissions sessionId => get_submissions sessionId
  | DeleteClear sessionId => delete_clear sessionId
  | PostUpdateSettings sessionId welcomeMessage subtitleMessage background =>
      post_update_settings sessionId welcomeMessage subtitleMessage background
  | GetSettings sessionId => get_settings sessionId
  | GetCode sessionCode => get_code sessionCode
  end.

(** Requests served one after the other. *)
Fixpoint serve (e : Env) (rs : list Request) (w : World)
  : list (Outcome Response) * World :=
  match rs with
  | [] => ([], w)
  | r :: rs' =>
      let '(o, w1) := handle e r w in
      let '(os, w2) := serve e rs' w1 in
      (o :: os, w2)
  end.

(** The ids handed out by the successful creates among some responses. *)
Definition created_id (o : Outcome Response) : option string :=
  match o with
  | Returned (Json 200 (SessionCreated id _ _)) => Some id
  | _ => None
  end.


(** ** Song suggestions (multi-tenant server) *)

Module Suggestion.

(** A track of the search answer, with the fields the route reads;
    [album = None] is a track without album object, on which reading the
    album name throws. *)
Record track : Type := Track {
  name : string;
  artists : list string;
  album : option string;
  id : string
}.

(** An entry of [audioFeaturesMap]. *)
Record features : Type := Features {
  features_bpm : Z;
  features_key : option string
}.

Record t : Type := Make {
  songName : string;
  artist : string;
  albumName : string;
  spotifyId : string;
  bpm : option Z;
  key : option string
}.

End Suggestion.

(** The two answers of [app.get('/api/spotify/suggestions')]:
    [res.json({ suggestions })] and [res.status(n).json({ error })]. *)
Inductive SuggestionsResponse : Type :=
| SuggestionsFound (suggestions : list Suggestion.t)
| SuggestionsError (status : Z) (error : string).

(** [names.join(', ')] *)
Fixpoint join (names : list string) : string :=
  match names with
  | [] => ""
  | [x] => x
  | x :: rest => x ++ ", " ++ join rest
  end.

(** What the [forEach] stores for one element of [audio_features], if
    anything. *)
Definition features_entry (f : option Features) : option Suggestion.features :=
  match f with
  | Some features =>
      match features_tempo features with
      | Some tempo =>
          if Qeq_bool tempo 0 then None
          else
            Some (Suggestion.Features (Math_round tempo)
                    (if negb (features_key features =? -1)
                        && negb (features_mode features =? -1)
                     then convertToCamelotKey (features_key features)
                            (features_mode features)
                     else None))
      | None => None
      end
  | None => None
  end.

(** The [forEach] over [audio_features], from position [index] on;
    [audioFeaturesMap] is an object keyed by track id (the ids of the
    provider are 22 letters and digits, none of them the name of an
    inherited property), and a position beyond the ids is the key
    [undefined]. *)
Fixpoint fill_features (trackIds : list string) (index : nat)
    (audio_features : list (option Features))
    (audioFeaturesMap : gmap string Suggestion.features)
  : gmap string Suggestion.features :=
  match audio_features with
  | [] => audioFeaturesMap
  | f :: rest =>
      fill_features trackIds (S index) rest
        match features_entry f with
        | Some v => <[Js.template_str (trackIds !! index) := v]> audioFeaturesMap
        | None => audioFeaturesMap
        end
  end.

(** The function mapped over the tracks to build the suggestions. *)
Definition suggest (audioFeaturesMap : gmap string Suggestion.features)
    (track : Suggestion.track) : M Suggestion.t :=
  let features := audioFeaturesMap !! Suggestion.id track in
  match Suggestion.album track with
  | None => throw "TypeError"
  | Some albumName =>
      ret (Suggestion.Make (Suggestion.name track) (join (Suggestion.artists track))
             albumName (Suggestion.id track)
             (Suggestion.features_bpm <$> features)
             (features ≫= Suggestion.features_key))
  end.

Fixpoint map_tracks (f : Suggestion.track -> M Suggestion.t)
    (tracks : list Suggestion.track) : M (list Suggestion.t) :=
  match tracks with
  | [] => ret []
  | track :: rest =>
      s <- f track ;;
      ss <- map_tracks f rest ;;
      ret (s :: ss)
  end.

Section Suggestions.

(** The two calls of the route: the search with [limit=10], by query
    ([None] is an answer without [tracks.items]), and the audio features
    of several tracks, by ids ([None] is an answer without
    [audio_features]). *)
Variable search_tracks : string -> nat -> Http (option (list Suggestion.track)).
Variable several_features : list string -> nat -> Http (option (list (option Features))).

(** [app.get('/api/spotify/suggestions')] *)
Definition get_suggestions (e : Env) (query : option string) : M SuggestionsResponse :=
  if negb (Js.truthy query) || (String.length (Js.trim (str query)) =? 0)%nat
  then ret (SuggestionsFound [])
  else
    try_catch
      (token <- getSpotifyAccessToken e ;;
       if negb (Js.truthy token)
       then ret (SuggestionsError 500 "Failed to get Spotify access token")
       else
         let searchQuery := Js.trim (str query) in
         items <- await (search_tracks searchQuery) ;;
         match items with
         | Some tracks =>
             let trackIds := Suggestion.id <$> tracks in
             audioFeaturesMap <-
               try_catch
                 (featuresResponse <- await (several_features trackIds) ;;
                  match featuresResponse with
                  | Some audio_features =>
                      ret (fill_features trackIds 0 audio_features ∅)
                  | None => ret ∅
                  end)
                 (fun _ => ret ∅) ;;
             suggestions <- map_tracks (suggest audioFeaturesMap) tracks ;;
             ret (SuggestionsFound suggestions)
         | None => ret (SuggestionsFound [])
         end)
      (fun _ => ret (SuggestionsError 500 "Failed to fetch suggestions")).

End Suggestions.

(** ** The submit of the OpenAI revision (server.js)

    This revision has one table, without sessions; a row is saved at
    once with the submitted values and rewritten in the background with
    what [enhanceSongData] returns, whatever JSON values those are. *)

Module ServerJs.

Record row : Type := Row {
  id : Z;
  song_name : OpenAI.Json;
  artist : OpenAI.Json;
  user_name : option string;
  original_song_name : string;
  original_artist : string;
  bpm : OpenAI.Json;
  key_camelot : OpenAI.Json;
  key_regular : OpenAI.Json;
  created_at : string
}.

Record Table : Type := MkTable {
  rows : list row;
  seq : Z
}.

Inductive Response : Type :=
| Saved (message : string) (id : Z)
| Rejected (status : Z) (error : string).

(** [INSERT INTO submissions (song_name, artist, user_name,
    original_song_name, original_artist, bpm, key_camelot, key_regular)
    VALUES (?, ?, ?, ?, ?, null, null, null)]; the result is
    [this.lastID]. *)
Definition insert (e : Env) (songName artist : string) (userName : option string)
    (t : Table) : M (Z * Table) :=
  fun w =>
    let lastID := seq t + 1 in
    let r := Row lastID (OpenAI.JStr songName) (OpenAI.JStr artist) userName
               songName artist OpenAI.JNull OpenAI.JNull OpenAI.JNull
               (CURRENT_TIMESTAMP e (tick w)) in
    (Returned (lastID, MkTable (rows t ++ [r]) lastID), next_tick w).

(** [UPDATE submissions SET song_name = ?, artist = ?, bpm = ?,
    key_camelot = ?, key_regular = ? WHERE id = ?] *)
Definition set_enhanced (d : OpenAI.Enhanced) (r : row) : row :=
  Row (id r) (OpenAI.corrected_song_name d) (OpenAI.corrected_artist d) (user_name r)
    (original_song_name r) (original_artist r)
    (OpenAI.bpm d) (OpenAI.key_camelot d) (OpenAI.key_regular d) (created_at r).

Definition update (d : OpenAI.Enhanced) (submissionId : Z) (t : Table) : Table :=
  MkTable ((fun r => if decide (id r = submissionId) then set_enhanced d r else r)
             <$> rows t)
          (seq t).

Section Parse.
Variable JSON_parse : string -> option OpenAI.Json.

(** [app.post('/api/submit')]: the answer, and the table once the
    background enhancement has run. *)
Definition post_submit (e : Env) (songName artist userName : option string)
    (t : Table) : M (Response * Table) :=
  if negb (Js.truthy songName) || negb (Js.truthy artist)
  then ret (Rejected 400 "Song name and artist are required", t)
  else
    saved <- insert e (str songName) (str artist) (Js.or_null userName) t ;;
    let submissionId := saved.1 in
    let response := Saved "Submission saved successfully" submissionId in
    enhanced <-
      try_catch
        (enhancedData <- OpenAI.enhanceSongData JSON_parse e (str songName) (str artist) ;;
         ret (update enhancedData submissionId saved.2))
        (fun _ => ret saved.2) ;;
    ret (response, enhanced).

End Parse.

End ServerJs.

(** ** Vocabulary of the properties *)

(** A computation that leaves the tables and the random source alone,
    whatever its outcome. *)
Definition preserves_db {A} (c : M A) : Prop :=
  forall w, db (c w).2 = db w /\ draws (c w).2 = draws w.

(** A computation that never throws. *)
Definition returns {A} (c : M A) : Prop :=
  forall w, exists a, (c w).1 = Returned a.

(** A search answer from which [verifyWithSpotify] gets no track. *)
Definition no_usable_match (h : Http (list Track)) : Prop :=
  match h with
  | Body (track :: _) => track_artists track = []
  | _ => True
  end.

(** The query [verifyWithSpotify] sends. *)
Definition search_query (songName artistName : string) : string :=
  "track:" ++ songName ++ " artist:" ++ artistName.

(** A completion from which the OpenAI revision decodes no object. *)
Definition no_decoded_value (JSON_parse : string -> option OpenAI.Json)
    (c : Completion) : Prop :=
  match c with
  | Content content =>
      let response := Js.trim content in
      let text := match OpenAI.match_braces response with
                  | Some m => m
                  | None => response
                  end in
      JSON_parse text = None \/ JSON_parse text = Some OpenAI.JNull
  | _ => True
  end.

(** A string made of white space only (the empty string included). *)
Definition blank (s : string) : bool :=
  forallb Js.is_space (list_ascii_of_string s).

(** What a settings read shows for a field last written as [x], [d] being
    its default. *)
Definition resolved (x : option string) (d : string) : string :=
  match x with
  | Some v => if blank v then d else v
  | None => d
  end.

(** Letters and digits, by code unit. *)
Definition upper_alphanumeric (c : ascii) : Prop :=
  (65 <= Js.code c <= 90)%N \/ (48 <= Js.code c <= 57)%N.

Definition alphanumeric (c : ascii) : Prop :=
  (65 <= Js.code c <= 90)%N \/ (97 <= Js.code c <= 122)%N \/ (48 <= Js.code c <= 57)%N.

(** Four code units, all of one class. *)
Definition four_of (class : ascii -> Prop) (s : string) : Prop :=
  String.length s = 4%nat /\ Forall class (list_ascii_of_string s).

(** The character [generateShortCode] takes for the draw number [n], and
    the code it builds from the draws [n], [n+1], [n+2] and [n+3]. *)
Definition pick (e : Env) (n : nat) : string :=
  Js.charAt chars (Math_floor (Math_random e n * inject_Z (Z.of_nat (String.length chars)))).

Definition code_at (e : Env) (n : nat) : string :=
  ((("" ++ pick e n) ++ pick e (S n)) ++ pick e (S (S n))) ++ pick e (S (S (S n))).

(** The world after [k] more draws. *)
Definition add_draws (k : nat) (w : World) : World :=
  MkWorld (db w) (spotifyAccessToken w) (tokenExpiry w) (tick w) (k + draws w).


(** ** Sample worlds *)

Definition empty_db : DB := MkDB ∅ [] 0.

Definition fresh : World := MkWorld empty_db None None 0 0.

(** Everything outside is down and the random source is stuck at 0. *)
Definition offline : Env := {|
  Math_random := fun _ => 0%Q;
  Date_now := fun n => Z.of_nat n;
  Date_toISOString := fun _ => "2025-01-01T00:00:00.000Z";
  CURRENT_TIMESTAMP := fun _ => "2025-01-01 00:00:00";
  token_endpoint := fun _ => NetworkError "ECONNREFUSED";
  search_endpoint := fun _ _ => NetworkError "ECONNREFUSED";
  features_endpoint := fun _ _ => NetworkError "ECONNREFUSED";
  chat_completions := fun _ _ _ => ApiError "ECONNREFUSED"
|}.

(** The provider knows the song but its audio-features endpoint fails. *)
Definition yesterday : Track := {|
  track_name := "Yesterday";
  track_artists := ["The Beatles"];
  track_id := "3BQHpFgAp4l80e1XslIjNI";
  track_popularity := 80;
  track_preview_url := None
|}.

Definition features_down : Env := {|
  Math_random := fun n => (Z.of_nat (n mod 36) # 36)%Q;
  Date_now := fun n => Z.of_nat n;
  Date_toISOString := fun _ => "2025-01-01T00:00:00.000Z";
  CURRENT_TIMESTAMP := fun _ => "2025-01-01 00:00:00";
  token_endpoint := fun _ => Body {| access_token := Some "BQD"; expires_in := Some 3600 |};
  search_endpoint := fun _ _ => Body [yesterday];
  features_endpoint := fun _ _ => NetworkError "Request failed with status code 403";
  chat_completions := fun _ _ _ => Content "I do not know this song."
|}.

(** Two sessions with requests of their own. *)
Definition party (id name : string) : Sessions.row :=
  Sessions.Row id name "2025-01-01 20:00:00" 1
    (Some name) (Some "Submit your song below") (Some "#000").

Definition wish (id : Z) (session_id song_name artist created_at : string)
  : Submissions.row :=
  Submissions.Row id session_id song_name artist None (Some song_name) (Some artist)
    None None None 0 created_at.

Definition two_parties : World :=
  MkWorld
    (MkDB (<["AB12" := party "AB12" "Friday Mixer"]>
             (<["CD34" := party "CD34" "Wedding"]> ∅))
          [wish 1 "AB12" "Yesterday" "The Beatles" "2025-01-01 20:01:00";
           wish 2 "CD34" "Dancing Queen" "ABBA" "2025-01-01 20:02:00";
           wish 3 "AB12" "Hey Jude" "The Beatles" "2025-01-01 20:03:00"]
          3)
    None None 0 0.

(** The only code the stuck random source can give is taken. *)
Definition taken : World :=
  MkWorld (MkDB (<["AAAA" := party "AAAA" "Karaoke"]> ∅) [] 0) None None 0 0.

(** ** Further vocabulary *)

(** The routes that only read. *)
Definition read_only (r : Request) : bool :=
  match r with
  | GetSession _ | GetSessions | GetSubmissions _ | GetSettings _ | GetCode _ => true
  | PostSessions _ | PostSubmit _ _ _ _ _ | DeleteClear _
  | PostUpdateSettings _ _ _ _ => false
  end.

(** A store in which every request belongs to a session that exists and
    the row ids are distinct and not above the sequence. *)
Definition consistent (d : DB) : Prop :=
  (forall r, r ∈ submissions d -> is_Some (sessions d !! Submissions.session_id r))
  /\ (forall r, r ∈ submissions d -> Submissions.id r <= seq d)
  /\ NoDup (Submissions.id <$> submissions d).

(** [YYYY-MM-DDTHH:MM:SS.000Z], position by position. *)
Definition iso_datetime : list (ascii -> bool) :=
  let d := Js.is_digit in
  [d; d; d; d; Js.is_char "-"; d; d; Js.is_char "-"; d; d; Js.is_char "T";
   d; d; Js.is_char ":"; d; d; Js.is_char ":"; d; d;
   Js.is_char "."; Js.is_char "0"; Js.is_char "0"; Js.is_char "0"; Js.is_char "Z"].

(** The token cache is usable at time [now]. *)
Definition cache_valid (w : World) (now : Z) : Prop :=
  exists t x, spotifyAccessToken w = Some t /\ t <> ""
              /\ tokenExpiry w = Some x /\ x <> 0 /\ now < x.

(** The code unit [c] occurs in [s]. *)
Fixpoint occurs (c : ascii) (s : string) : bool :=
  match s with
  | EmptyString => false
  | String x s' => Ascii.eqb x c || occurs c s'
  end.

(** The provider answers every call. *)
Definition online : Env := {|
  Math_random := fun n => (Z.of_nat (n mod 36) # 36)%Q;
  Date_now := fun n => Z.of_nat n;
  Date_toISOString := fun _ => "2025-01-01T00:00:00.000Z";
  CURRENT_TIMESTAMP := fun _ => "2025-01-01 00:00:00";
  token_endpoint := fun _ => Body {| access_token := Some "BQD"; expires_in := Some 3600 |};
  search_endpoint := fun _ _ => Body [yesterday];
  features_endpoint := fun _ _ =>
    Body {| features_key := 5; features_mode := 1; features_tempo := Some (1935 # 20)%Q |};
  chat_completions := fun _ _ _ =>
    Content "Here you are: {bpm: 97} I hope it helps."
|}.

(** What the answer [h] of the several-features call holds for the track
    at position [i], as the route stores it. *)
Definition features_at (h : Http (option (list (option Features)))) (i : nat)
  : option Suggestion.features :=
  match h with
  | Body (Some audio_features) => features_entry (mjoin (audio_features !! i))
  | _ => None
  end.

(** A search of two tracks, the second by two artists, and audio
    features for the second only. *)
Definition two_tracks : list Suggestion.track :=
  [Suggestion.Track "Yesterday" ["The Beatles"] (Some "Help!") "3BQHpFgAp4l80e1XslIjNI";
   Suggestion.Track "Under Pressure" ["Queen"; "David Bowie"] (Some "Hot Space")
     "2fuCquhmrzHpu5xcA1ci9x"].

Definition search_two : string -> nat -> Http (option (list Suggestion.track)) :=
  fun _ _ => Body (Some two_tracks).

Definition features_of_second
  : list string -> nat -> Http (option (list (option Features))) :=
  fun _ _ =>
    Body (Some [None;
                Some {| features_key := 2; features_mode := 1;
                        features_tempo := Some (114 # 1)%Q |}]).

(** Every session is filed under its own id, which is not empty, has a
    name that is not empty, and is active. *)
Definition sessions_in_order (d : DB) : Prop :=
  forall id row,
    sessions d !! id = Some row ->
    Sessions.id row = id /\ id <> "" /\ Sessions.name row <> ""
    /\ Sessions.is_active row = 1.

(** * Properties *)

(** ** Key converter *)

Example camelot_c_major : convertToCamelotKey 0 1 = Some "8A".
Proof. reflexivity. Qed.

Lemma camelot_labels_length : length camelot_labels = 24%nat.
Proof. reflexivity. Qed.

Lemma camelot_labels_NoDup : NoDup camelot_labels.
Proof. compute_done. Qed.

Lemma small_pitch_class (key : Z) :
  0 <= key <= 11 -> key ∈ [0; 1; 2; 3; 4; 5; 6; 7; 8; 9; 10; 11].
Proof.
  intros Hrange.
  assert (key = 0 \/ key = 1 \/ key = 2 \/ key = 3 \/ key = 4 \/ key = 5 \/ key = 6
          \/ key = 7 \/ key = 8 \/ key = 9 \/ key = 10 \/ key = 11) as Hk by lia.
  clear Hrange.
  repeat destruct Hk as [-> | Hk]; try subst key; set_solver.
Qed.

(** C4. [convertToCamelotKey] is a total function: on every pitch class
    0..11 and mode 0 (minor) or 1 (major) it returns the wheel position
    found in the table of the mode (a number from 1 to 12) followed by
    [A] for major and [B] for minor, which is one of the 24 fixed labels;
    whenever the key or the mode is -1 it returns null. *)
Theorem convertToCamelotKey_total (key mode : Z) :
  (0 <= key <= 11 -> mode = 0 \/ mode = 1 ->
   exists position,
     Js.index (if mode =? 1 then camelotMajor else camelotMinor) key = Some position
     /\ 1 <= position <= 12
     /\ convertToCamelotKey key mode
        = Some (pretty position ++ (if mode =? 1 then "A" else "B"))
     /\ pretty position ++ (if mode =? 1 then "A" else "B") ∈ camelot_labels)
  /\ (key = -1 \/ mode = -1 -> convertToCamelotKey key mode = None).
Proof.
  split.
  - intros Hk Hm. apply small_pitch_class in Hk.
    repeat (apply elem_of_cons in Hk as [-> | Hk]);
      try (by apply elem_of_nil in Hk);
      destruct Hm as [-> | ->];
      (eexists; split; [reflexivity |]; split; [lia |]; split; [reflexivity |]);
      compute_done.
  - intros [-> | ->]; unfold convertToCamelotKey.
    + reflexivity.
    + by rewrite orb_true_r.
Qed.

Lemma convertToCamelotKey_total_witness :
  convertToCamelotKey 9 0 = Some "8B" /\ convertToCamelotKey (-1) 1 = None.
Proof.
  destruct (convertToCamelotKey_total 9 0) as [Hin _].
  destruct (convertToCamelotKey_total (-1) 1) as [_ Hnull].
  split.
  - destruct Hin as (position & Hidx & _ & Heq & _); [lia | by left |].
    injection Hidx as <-. exact Heq.
  - apply Hnull. by left.
Defined.

(** The 24 combinations give the 24 labels, each once. *)
Lemma convertToCamelotKey_table :
  (m ← [1; 0]; k ← seqZ 0 12; [convertToCamelotKey k m]) = Some <$> camelot_labels.
Proof. reflexivity. Qed.

(** ** Computations that may throw: basic facts *)

Create HintDb effects.

Lemma preserves_db_ret {A} (a : A) : preserves_db (ret a).
Proof. by intros w. Qed.

Lemma preserves_db_throw {A} (x : string) : preserves_db (@throw A x).
Proof. by intros w. Qed.

Lemma preserves_db_gets {A} (f : World -> A) : preserves_db (gets f).
Proof. by intros w. Qed.

Lemma preserves_db_bind {A B} (c : M A) (k : A -> M B) :
  preserves_db c -> (forall a, preserves_db (k a)) -> preserves_db (bind c k).
Proof.
  intros Hc Hk w. unfold bind. specialize (Hc w).
  destruct (c w) as [[a | x] w1]; simpl in *; [| done].
  destruct (Hk a w1) as [-> ->]. done.
Qed.

Lemma preserves_db_try_catch {A} (body : M A) (handler : string -> M A) :
  preserves_db body -> (forall x, preserves_db (handler x)) ->
  preserves_db (try_catch body handler).
Proof.
  intros Hc Hk w. unfold try_catch. specialize (Hc w).
  destruct (body w) as [[a | x] w1]; simpl in *; [done |].
  destruct (Hk x w1) as [-> ->]. done.
Qed.

Lemma preserves_db_next_tick : preserves_db (modify next_tick).
Proof. by intros w. Qed.

Lemma preserves_db_set_token t x : preserves_db (modify (set_token t x)).
Proof. by intros w. Qed.

Lemma preserves_db_await {A} (endpoint : nat -> Http A) : preserves_db (await endpoint).
Proof.
  unfold await. apply preserves_db_bind; [apply preserves_db_gets |].
  intros r. apply preserves_db_bind; [apply preserves_db_next_tick |].
  intros _. destruct r; [apply preserves_db_throw .. | apply preserves_db_ret].
Qed.

#[local] Hint Resolve preserves_db_ret preserves_db_throw preserves_db_gets
  preserves_db_next_tick preserves_db_set_token preserves_db_await : effects.

Lemma returns_ret {A} (a : A) : returns (ret a).
Proof. intros w. by exists a. Qed.

Lemma returns_try_catch {A} (body : M A) (handler : string -> M A) :
  (forall x, returns (handler x)) -> returns (try_catch body handler).
Proof.
  intros Hh w. unfold try_catch.
  destruct (body w) as [[a | x] w1]; [by exists a | apply Hh].
Qed.

(** Splitting a run into outcome and final state. *)
Lemma run_eq {A} (c : M A) (w : World) : c w = ((c w).1, (c w).2).
Proof. by destruct (c w). Qed.

Lemma returns_run {A} (c : M A) (w : World) :
  returns c -> exists a, c w = (Returned a, (c w).2).
Proof. intros H. destruct (H w) as [a Ha]. exists a. by rewrite <- Ha, <- run_eq. Qed.

(** ** The Spotify client never throws and never touches the tables *)

Lemma getSpotifyAccessToken_preserves_db e : preserves_db (getSpotifyAccessToken e).
Proof.
  unfold getSpotifyAccessToken, Date_now_.
  repeat (apply preserves_db_bind; [auto with effects | intros ?]).
  case_match; [auto with effects |].
  apply preserves_db_try_catch; [| auto with effects].
  repeat (apply preserves_db_bind; [auto with effects | intros ?]).
  auto with effects.
Qed.

Lemma getSpotifyAccessToken_returns e : returns (getSpotifyAccessToken e).
Proof.
  intros w. unfold getSpotifyAccessToken, Date_now_, bind, gets. simpl.
  case_match; [by eexists |].
  apply returns_try_catch. intros x. apply returns_ret.
Qed.

Lemma verifyWithSpotify_preserves_db e s a : preserves_db (verifyWithSpotify e s a).
Proof.
  unfold verifyWithSpotify.
  apply preserves_db_try_catch; [| auto with effects].
  apply preserves_db_bind; [apply getSpotifyAccessToken_preserves_db | intros t].
  case_match; [auto with effects |].
  apply preserves_db_bind; [auto with effects | intros items].
  repeat case_match; auto with effects.
Qed.

Lemma verifyWithSpotify_returns e s a : returns (verifyWithSpotify e s a).
Proof. apply returns_try_catch. intros x. apply returns_ret. Qed.

Lemma getSpotifyAudioFeatures_preserves_db e t :
  preserves_db (getSpotifyAudioFeatures e t).
Proof.
  unfold getSpotifyAudioFeatures.
  apply preserves_db_try_catch; [| auto with effects].
  apply preserves_db_bind; [apply getSpotifyAccessToken_preserves_db | intros tok].
  case_match; [auto with effects |].
  apply preserves_db_bind; auto with effects.
Qed.


Lemma enhanceSongData_returns e s a : returns (enhanceSongData e s a).
Proof. apply returns_try_catch. intros x. apply returns_ret. Qed.

Lemma enhanceSongData_preserves_db e s a : preserves_db (enhanceSongData e s a).
Proof.
  unfold enhanceSongData.
  apply preserves_db_try_catch; [| auto with effects].
  apply preserves_db_bind; [apply verifyWithSpotify_preserves_db | intros d].
  destruct d; [| auto with effects].
  apply preserves_db_bind; [apply getSpotifyAudioFeatures_preserves_db |].
  auto with effects.
Qed.

(** ** Enrichment: what comes back *)

(** A failed token exchange gives no token and leaves the cache as it
    was. *)
Lemma getSpotifyAccessToken_unavailable e w :
  spotifyAccessToken w = None ->
  (forall b, token_endpoint e (tick w) <> Body b) ->
  getSpotifyAccessToken e w = (Returned None, next_tick w).
Proof.
  intros Hc Hf. unfold getSpotifyAccessToken, Date_now_, bind, gets, try_catch, await.
  simpl. rewrite Hc. simpl. unfold bind, gets, modify. simpl.
  destruct (token_endpoint e (tick w)) as [m | | b]; try done.
  by destruct (Hf b).
Qed.

Lemma verifyWithSpotify_no_match e songName artistName w t w1 :
  getSpotifyAccessToken e w = (Returned t, w1) ->
  Js.truthy t = false
  \/ no_usable_match (search_endpoint e (search_query songName artistName) (tick w1)) ->
  exists w', verifyWithSpotify e songName artistName w = (Returned None, w').
Proof.
  intros Ht Hno. unfold verifyWithSpotify, try_catch, bind at 1. rewrite Ht.
  destruct (Js.truthy t) eqn:Htruthy; simpl; [| by eexists].
  destruct Hno as [? | Hno]; [done |].
  unfold await, bind, gets, modify, search_query in *. simpl.
  destruct (search_endpoint e _ (tick w1)) as [m | | [| track items]];
    simpl; try by eexists.
  simpl in Hno. rewrite Hno. by eexists.
Qed.

Lemma enhanceSongData_original e songName artist w w1 :
  verifyWithSpotify e songName artist w = (Returned None, w1) ->
  enhanceSongData e songName artist w
  = (Returned (Enhanced.original songName artist), w1).
Proof. intros H. unfold enhanceSongData, try_catch, bind. by rewrite H. Qed.

Lemma enhanceSongData_matched e songName artist w d w1 af w2 :
  verifyWithSpotify e songName artist w = (Returned (Some d), w1) ->
  getSpotifyAudioFeatures e (SpotifyData.spotify_id d) w1 = (Returned af, w2) ->
  enhanceSongData e songName artist w
  = (Returned (Enhanced.Make (SpotifyData.spotify_song_name d)
                 (SpotifyData.spotify_artist d)
                 (af ≫= AudioFeatures.bpm)
                 (af ≫= AudioFeatures.key_camelot)
                 (af ≫= AudioFeatures.key_regular)
                 true (Some d)), w2).
Proof.
  intros Hv Hf. unfold enhanceSongData, try_catch, bind. rewrite Hv, Hf.
  by destruct af.
Qed.

Lemma OpenAI_enhanceSongData_returns parse e songName artist :
  returns (OpenAI.enhanceSongData parse e songName artist).
Proof. apply returns_try_catch. intros x. apply returns_ret. Qed.

Lemma OpenAI_enhanceSongData_original parse e songName artist w :
  no_decoded_value parse (chat_completions e songName artist (tick w)) ->
  OpenAI.enhanceSongData parse e songName artist w
  = (Returned (OpenAI.original songName artist), next_tick w).
Proof.
  intros Hno.
  unfold OpenAI.enhanceSongData, OpenAI.create_completion, try_catch, bind, gets, modify.
  simpl. destruct (chat_completions e songName artist (tick w)) as [m | | c];
    simpl in *; try done.
  destruct Hno as [-> | ->]; done.
Qed.

(** C5, as the code has it. Both [enhanceSongData] never throw. The
    Spotify one returns the submitted song and artist with null bpm and
    keys whenever no token is to be had or the search gives no usable
    track (transport error, body of another shape, no item); when the
    search matches and only the audio-features lookup fails it returns
    the provider's title and artist, with null bpm and keys. The OpenAI
    one returns the submitted song and artist with null bpm and keys
    whenever the completion fails or cannot be decoded. *)
Theorem enhanceSongData_never_throws (e : Env) (songName artist : string) (w : World) :
  (exists r w', enhanceSongData e songName artist w = (Returned r, w'))
  /\ (forall t w1,
        getSpotifyAccessToken e w = (Returned t, w1) ->
        Js.truthy t = false
        \/ no_usable_match (search_endpoint e (search_query songName artist) (tick w1)) ->
        exists w', enhanceSongData e songName artist w
                   = (Returned (Enhanced.original songName artist), w'))
  /\ (forall d w1 w2,
        verifyWithSpotify e songName artist w = (Returned (Some d), w1) ->
        getSpotifyAudioFeatures e (SpotifyData.spotify_id d) w1 = (Returned None, w2) ->
        enhanceSongData e songName artist w
        = (Returned (Enhanced.Make (SpotifyData.spotify_song_name d)
                       (SpotifyData.spotify_artist d) None None None true (Some d)), w2))
  /\ (forall JSON_parse,
        (exists r w', OpenAI.enhanceSongData JSON_parse e songName artist w
                      = (Returned r, w'))
        /\ (no_decoded_value JSON_parse (chat_completions e songName artist (tick w)) ->
            OpenAI.enhanceSongData JSON_parse e songName artist w
            = (Returned (OpenAI.original songName artist), next_tick w))).
Proof.
  repeat split.
  - destruct (returns_run _ w (enhanceSongData_returns e songName artist)) as [r Hr].
    eauto.
  - intros t w1 Ht Hno.
    destruct (verifyWithSpotify_no_match e songName artist w t w1 Ht Hno) as [w' Hv].
    exists w'. by apply enhanceSongData_original.
  - intros d w1 w2 Hv Hf.
    by rewrite (enhanceSongData_matched e songName artist w d w1 None w2 Hv Hf).
  - destruct (returns_run _ w
                (OpenAI_enhanceSongData_returns JSON_parse e songName artist)) as [r Hr].
    eauto.
  - apply OpenAI_enhanceSongData_original.
Qed.

Lemma enhanceSongData_never_throws_witness :
  exists w', enhanceSongData offline "yesterday" "beatles" fresh
             = (Returned (Enhanced.original "yesterday" "beatles"), w').
Proof.
  destruct (enhanceSongData_never_throws offline "yesterday" "beatles" fresh)
    as (_ & Hno & _).
  apply (Hno None (next_tick fresh)); [reflexivity | by left].
Defined.

(** The pass-through does not cover a failure of the second call: the
    search has matched, the audio-features request is refused, and the
    record carries the provider's spelling, not the input. *)
Lemma enhanceSongData_features_failure :
  exists r w',
    enhanceSongData features_down "yesterday" "beatles" fresh = (Returned r, w')
    /\ features_endpoint features_down (track_id yesterday) 2
       = NetworkError "Request failed with status code 403"
    /\ Enhanced.corrected_song_name r <> "yesterday"
    /\ Enhanced.corrected_artist r <> "beatles"
    /\ Enhanced.bpm r = None.
Proof. do 2 eexists. split; [reflexivity |]. by repeat split. Qed.

(** ** Strings *)

Lemma test_classes_replicate (class : ascii -> bool) (n : nat) (s : string) :
  Js.test_classes (replicate n class) s = true
  <-> String.length s = n /\ Forall (fun c => class c = true) (list_ascii_of_string s).
Proof.
  revert s. induction n as [| n IH]; intros [| c s]; simpl.
  - split; [by split | done].
  - split; [done | by intros [? _]].
  - split; [done | by intros [? _]].
  - rewrite andb_true_iff, IH, Forall_cons. split.
    + intros (Hc & Hl & Hf). by rewrite Hl.
    + intros (Hl & Hc & Hf). injection Hl as Hl. done.
Qed.

Lemma code_class_i_alphanumeric (c : ascii) :
  code_class_i c = true <-> alphanumeric c.
Proof.
  unfold code_class_i, alphanumeric, Js.is_upper, Js.is_lower, Js.is_digit, Js.in_range.
  rewrite !orb_true_iff, !andb_true_iff, !N.leb_le. tauto.
Qed.

Lemma code_class_upper_alphanumeric (c : ascii) :
  code_class c = true <-> upper_alphanumeric c.
Proof.
  unfold code_class, upper_alphanumeric, Js.is_upper, Js.is_digit, Js.in_range.
  rewrite !orb_true_iff, !andb_true_iff, !N.leb_le. tauto.
Qed.

Lemma test_session_code_i (s : string) :
  Js.test_classes session_code_i s = true <-> four_of alphanumeric s.
Proof.
  unfold session_code_i, four_of. rewrite test_classes_replicate.
  by setoid_rewrite code_class_i_alphanumeric.
Qed.

Lemma test_session_code (s : string) :
  Js.test_classes session_code s = true <-> four_of upper_alphanumeric s.
Proof.
  unfold session_code, four_of. rewrite test_classes_replicate.
  by setoid_rewrite code_class_upper_alphanumeric.
Qed.

Lemma trimStart_blank (s : string) :
  if blank s then Js.trimStart s = ""
  else exists c r, Js.trimStart s = String c r /\ Js.is_space c = false.
Proof.
  induction s as [| c s IH]; [done |].
  unfold blank in *. simpl. destruct (Js.is_space c) eqn:Hc; simpl; [done |].
  by exists c, s.
Qed.

Lemma trim_blank (s : string) : Js.trim s = "" <-> blank s = true.
Proof.
  unfold Js.trim. pose proof (trimStart_blank s) as H.
  destruct (blank s).
  - by rewrite H.
  - destruct H as (c & r & -> & Hc). simpl. rewrite Hc. simpl. done.
Qed.

Lemma set_or_resolved (x : option string) (d : string) :
  set_or (Js.or_null x) d = resolved x d.
Proof.
  unfold set_or, Js.or_null, resolved.
  destruct x as [v |]; [| done]. simpl.
  destruct (String.eqb_spec v "") as [-> | Hv]; simpl; [done |].
  apply String.eqb_neq in Hv. rewrite Hv. simpl.
  pose proof (trim_blank v) as Hb.
  destruct (String.eqb_spec (Js.trim v) "") as [Ht | Ht]; simpl.
  - apply Hb in Ht. by rewrite Ht.
  - destruct (blank v); [| done]. by destruct Ht; apply Hb.
Qed.

(** ** The route of the short codes *)

(** C9, as the code has it. [GET /:code] redirects to [/session/:code]
    exactly when [code] is four letters or digits, letters of either
    case (the test is case-insensitive), and answers 404 otherwise. *)
Theorem get_code_redirects (sessionCode : string) (w : World) :
  (four_of alphanumeric sessionCode ->
   get_code sessionCode w = (Returned (Redirect ("/session/" ++ sessionCode)), w))
  /\ (~ four_of alphanumeric sessionCode ->
      get_code sessionCode w = (Returned (Send 404 "Session not found"), w)).
Proof.
  unfold get_code. rewrite <- test_session_code_i.
  destruct (Js.test_classes session_code_i sessionCode); split; intros H; done.
Qed.

Lemma get_code_redirects_witness :
  get_code "A1B2" fresh = (Returned (Redirect "/session/A1B2"), fresh)
  /\ get_code "admin" fresh = (Returned (Send 404 "Session not found"), fresh).
Proof.
  split.
  - apply (get_code_redirects "A1B2" fresh).
    apply test_session_code_i. reflexivity.
  - apply (get_code_redirects "admin" fresh).
    intros [Hlen _]. simpl in Hlen. lia.
Defined.

(** A lower-case code does not match [^[A-Z0-9]{4}$] and is redirected
    all the same. *)
Lemma get_code_lower_case :
  ~ four_of upper_alphanumeric "ab12"
  /\ get_code "ab12" fresh = (Returned (Redirect "/session/ab12"), fresh).
Proof.
  split; [| reflexivity].
  rewrite <- test_session_code. by vm_compute.
Qed.

(** ** Settings *)

Lemma set_db_same (w : World) :
  set_db (MkDB (sessions (db w)) (submissions (db w)) (seq (db w))) w = w.
Proof. by destruct w as [[] ? ? ? ?]. Qed.

Lemma alter_absent (f : Sessions.row -> Sessions.row) (id : string)
    (m : gmap string Sessions.row) :
  m !! id = None -> alter f id m = m.
Proof.
  intros H. apply map_eq. intros j.
  destruct (decide (id = j)) as [<- | Hne].
  - by rewrite lookup_alter_eq, H.
  - by rewrite lookup_alter_ne.
Qed.

(** C8, as the code has it. On an existing session [updateSettings]
    succeeds and stores null for every omitted field (the other columns
    of the row, its name among them, stay); the settings read that
    follows shows, for each field, the stored value verbatim when it has
    a character that is not white space, and the default otherwise:
    the session name for the welcome message, the fixed subtitle, the
    fixed background. *)
Theorem settings_round_trip (sessionId : string) (row : Sessions.row)
    (welcomeMessage subtitleMessage background : option string) (w : World) :
  sessionId <> "" ->
  sessions (db w) !! sessionId = Some row ->
  exists w1 row1,
    post_update_settings (Some sessionId) welcomeMessage subtitleMessage background w
    = (Returned (Json 200 Success), w1)
    /\ sessions (db w1) !! sessionId = Some row1
    /\ Sessions.name row1 = Sessions.name row
    /\ (welcomeMessage = None -> Sessions.welcome_message row1 = None)
    /\ (subtitleMessage = None -> Sessions.subtitle_message row1 = None)
    /\ (background = None -> Sessions.background row1 = None)
    /\ (forall v, welcomeMessage = Some v -> v <> "" ->
          Sessions.welcome_message row1 = Some v)
    /\ (forall v, subtitleMessage = Some v -> v <> "" ->
          Sessions.subtitle_message row1 = Some v)
    /\ (forall v, background = Some v -> v <> "" ->
          Sessions.background row1 = Some v)
    /\ get_settings (Some sessionId) w1
       = (Returned (Json 200 (Settings
            (Some (resolved welcomeMessage (Sessions.name row)))
            (resolved subtitleMessage "Submit your song below")
            (resolved background "#000"))), w1).
Proof.
  intros Hid Hrow. apply String.eqb_neq in Hid.
  eexists _, (set_settings (Js.or_null welcomeMessage) (Js.or_null subtitleMessage)
                (Js.or_null background) row).
  unfold post_update_settings, get_settings, update_settings, select_session,
    bind, gets, modify, ret, set_db. simpl. rewrite Hid. simpl.
  split; [reflexivity |]. simpl.
  rewrite !lookup_alter_eq, Hrow. simpl.
  rewrite !set_or_resolved.
  repeat split; try by intros ->.
  all: intros v -> Hv; apply String.eqb_neq in Hv;
    unfold Js.or_null; simpl; by rewrite Hv.
Qed.

Lemma settings_round_trip_witness :
  exists w1,
    post_update_settings (Some "AB12") (Some "Welcome!") None None two_parties
    = (Returned (Json 200 Success), w1)
    /\ get_settings (Some "AB12") w1
       = (Returned (Json 200 (Settings (Some "Welcome!") "Submit your song below"
                                "#000")), w1).
Proof.
  destruct (settings_round_trip "AB12" (party "AB12" "Friday Mixer")
              (Some "Welcome!") None None two_parties)
    as (w1 & row1 & Hpost & _ & _ & _ & _ & _ & _ & _ & _ & Hget);
    [done | reflexivity |].
  exists w1. split; [exact Hpost | exact Hget].
Defined.

(** An explicit value of white space only is stored as it is and read
    back as the default. *)
Lemma settings_blank_not_verbatim :
  exists w1 row1,
    post_update_settings (Some "AB12") (Some " ") None None two_parties
    = (Returned (Json 200 Success), w1)
    /\ sessions (db w1) !! "AB12" = Some row1
    /\ Sessions.welcome_message row1 = Some " "
    /\ get_settings (Some "AB12") w1
       = (Returned (Json 200 (Settings (Some "Friday Mixer") "Submit your song below"
                                "#000")), w1).
Proof. do 2 eexists. split; [reflexivity |]. vm_compute. by repeat split. Qed.

(** C10. [updateSettings] on an id that names no session answers
    [{success: true}] and changes nothing. *)
Theorem update_settings_unknown_session (sessionId : string)
    (welcomeMessage subtitleMessage background : option string) (w : World) :
  sessionId <> "" ->
  sessions (db w) !! sessionId = None ->
  post_update_settings (Some sessionId) welcomeMessage subtitleMessage background w
  = (Returned (Json 200 Success), w).
Proof.
  intros Hid Hnone. apply String.eqb_neq in Hid.
  unfold post_update_settings, update_settings, bind, modify, ret. simpl.
  rewrite Hid. simpl. by rewrite alter_absent, set_db_same.
Qed.

Lemma update_settings_unknown_session_witness :
  post_update_settings (Some "ZZZZ") (Some "Hello") None (Some "#fff") two_parties
  = (Returned (Json 200 Success), two_parties).
Proof. by apply update_settings_unknown_session. Defined.

(** ** Submissions *)

Lemma format_row_session_id (r : Submissions.row) :
  Submissions.session_id (format_row r) = Submissions.session_id r.
Proof. unfold format_row. by repeat case_match. Qed.

Lemma format_row_id (r : Submissions.row) :
  Submissions.id (format_row r) = Submissions.id r.
Proof. unfold format_row. by repeat case_match. Qed.

Lemma select_submissions_rows (A : string) (w : World) :
  exists rows,
    select_submissions A w = (Returned (Ok rows), w)
    /\ rows ≡ₚ filter (fun r => Submissions.session_id r = A) (submissions (db w)).
Proof.
  eexists. split; [reflexivity |]. apply merge_sort_Permutation.
Qed.

Lemma select_session_run (id : string) (w : World) :
  select_session id w = (Returned (Ok (sessions (db w) !! id)), w).
Proof. reflexivity. Qed.

(** C1. When session [A] exists, the listing of [A] succeeds, changes
    nothing, and returns exactly the stored rows whose session reference
    is [A] (with their timestamp reformatted): every returned row refers
    to [A], none refers to another session [B]. This holds in every state
    of the store, hence in every reachable one. *)
Theorem get_submissions_isolation (A : string) (w : World) :
  A <> "" ->
  is_Some (sessions (db w) !! A) ->
  exists rows,
    get_submissions (Some A) w = (Returned (Json 200 (SubmissionRows rows)), w)
    /\ (forall r', r' ∈ rows <->
          exists r, r ∈ submissions (db w) /\ Submissions.session_id r = A
                    /\ r' = format_row r)
    /\ (forall r', r' ∈ rows -> Submissions.session_id r' = A)
    /\ (forall B r', B <> A -> r' ∈ rows -> Submissions.session_id r' <> B).
Proof.
  intros HA [s Hs]. apply String.eqb_neq in HA.
  destruct (select_submissions_rows A w) as (rows & Hsel & Hperm).
  exists (format_row <$> rows).
  assert (forall r', r' ∈ format_row <$> rows <->
            exists r, r ∈ submissions (db w) /\ Submissions.session_id r = A
                      /\ r' = format_row r) as Hrows.
  { intros r'. rewrite list_elem_of_fmap. setoid_rewrite Hperm.
    setoid_rewrite list_elem_of_filter. split.
    - intros (r & -> & Hr & Hin). by exists r.
    - intros (r & Hin & Hr & ->). by exists r. }
  assert (forall r', r' ∈ format_row <$> rows -> Submissions.session_id r' = A) as Hall.
  { intros r' (r & _ & Hr & ->)%Hrows. by rewrite format_row_session_id. }
  split; [| split; [exact Hrows | split; [exact Hall |]]].
  - unfold get_submissions, bind, Js.truthy. rewrite HA.
    change (str (Some A)) with A. cbn [negb].
    rewrite select_session_run, Hs, Hsel. reflexivity.
  - intros B r' HB Hr' <-. by apply HB, Hall.
Qed.

Lemma get_submissions_isolation_witness :
  exists rows,
    get_submissions (Some "AB12") two_parties
    = (Returned (Json 200 (SubmissionRows rows)), two_parties)
    /\ Submissions.id <$> rows = [3; 1]
    /\ (forall r', r' ∈ rows -> Submissions.session_id r' <> "CD34").
Proof.
  destruct (get_submissions_isolation "AB12" two_parties) as (rows & Hget & _ & _ & Hiso);
    [done | by eexists |].
  exists rows. split; [exact Hget |]. split.
  - assert (get_submissions (Some "AB12") two_parties
            = (Returned (Json 200 (SubmissionRows
                 (format_row <$> [wish 3 "AB12" "Hey Jude" "The Beatles" "2025-01-01 20:03:00";
                                  wish 1 "AB12" "Yesterday" "The Beatles" "2025-01-01 20:01:00"]))),
               two_parties)) as Hrun by reflexivity.
    rewrite Hget in Hrun. by injection Hrun as ->.
  - intros r'. by apply Hiso.
Defined.




(** C2, as the code has it. A missing session id is a 400 in all three
    operations. An id that names no session is a 404 "Session not found"
    for the listing and, once song and artist are given, for the submit;
    the clear does not look the session up: it deletes the rows that
    carry the id, none when the store is consistent, and answers with
    success and their count. 400 and 404 are different signals. *)
Theorem session_id_rejections (e : Env) (w : World) :
  (forall songName artist userName spotifyId,
     exists message,
       post_submit e songName artist userName None spotifyId w
       = (Returned (Json 400 (ErrorBody message)), w))
  /\ get_submissions None w
     = (Returned (Json 400 (ErrorBody "Session ID is required")), w)
  /\ delete_clear None w
     = (Returned (Json 400 (ErrorBody "Session ID is required")), w)
  /\ (forall id, id <> "" -> sessions (db w) !! id = None ->
        (forall songName artist userName spotifyId,
           Js.truthy songName = true -> Js.truthy artist = true ->
           post_submit e songName artist userName (Some id) spotifyId w
           = (Returned (Json 404 (ErrorBody "Session not found")), w))
        /\ get_submissions (Some id) w
           = (Returned (Json 404 (ErrorBody "Session not found")), w)
        /\ exists changes w',
             delete_clear (Some id) w
             = (Returned (Json 200 (Cleared ("Cleared " ++ pretty changes ++ " submissions")
                                      changes)), w')
             /\ changes = Z.of_nat (length (filter (fun r => Submissions.session_id r = id)
                                              (submissions (db w))))
             /\ sessions (db w') = sessions (db w)
             /\ submissions (db w')
                = filter (fun r => Submissions.session_id r <> id) (submissions (db w)))
  /\ (400 : Z) <> 404.
Proof.
  split; [| split; [reflexivity | split; [reflexivity | split; [| done]]]].
  - intros songName artist userName spotifyId. unfold post_submit.
    destruct (negb (Js.truthy songName) || negb (Js.truthy artist)); by eexists.
  - intros id Hid Hnone. apply String.eqb_neq in Hid. split; [| split].
    + intros songName artist userName spotifyId Hs Ha.
      unfold post_submit, bind, Js.truthy at 3. rewrite Hs, Ha, Hid.
      change (str (Some id)) with id. cbn [negb orb].
      by rewrite select_session_run, Hnone.
    + unfold get_submissions, bind, Js.truthy. rewrite Hid.
      change (str (Some id)) with id. cbn [negb].
      by rewrite select_session_run, Hnone.
    + unfold delete_clear, bind, Js.truthy. rewrite Hid.
      change (str (Some id)) with id. cbn [negb].
      do 2 eexists. split; [reflexivity |]. done.
Qed.

Lemma session_id_rejections_witness :
  get_submissions (Some "ZZZZ") two_parties
  = (Returned (Json 404 (ErrorBody "Session not found")), two_parties)
  /\ get_submissions None two_parties
     = (Returned (Json 400 (ErrorBody "Session ID is required")), two_parties).
Proof.
  destruct (session_id_rejections offline two_parties) as (_ & H400 & _ & Hunknown & _).
  split; [| exact H400].
  apply (Hunknown "ZZZZ"); [done | reflexivity].
Defined.

(** The clear of a session that does not exist is a success, not a 404. *)
Lemma delete_clear_unknown_session :
  sessions (db two_parties) !! "ZZZZ" = None
  /\ delete_clear (Some "ZZZZ") two_parties
     = (Returned (Json 200 (Cleared "Cleared 0 submissions" 0)), two_parties).
Proof. split; reflexivity. Qed.

(** ** Session identifiers *)

Lemma add_draws_0 (w : World) : add_draws 0 w = w.
Proof. by destruct w. Qed.

Lemma add_draws_add (j k : nat) (w : World) :
  add_draws j (add_draws k w) = add_draws (j + k) w.
Proof. unfold add_draws. simpl. f_equal. lia. Qed.

Lemma generateShortCode_run (e : Env) (w : World) :
  generateShortCode e w = (Returned (code_at e (draws w)), add_draws 4 w).
Proof. reflexivity. Qed.

Lemma tryGenerate_step (e : Env) (attempts : nat) (w : World) :
  tryGenerate e attempts w
  = if decide (S attempts <= maxAttempts)%nat
    then match sessions (db w) !! code_at e (draws w) with
         | Some _ => tryGenerate e (S attempts) (add_draws 4 w)
         | None => (Returned (Some (code_at e (draws w))), add_draws 4 w)
         end
    else (Returned None, w).
Proof.
  remember (tryGenerate e (S attempts) (add_draws 4 w)) as again eqn:Hagain.
  simp tryGenerate.
  destruct (le_lt_dec (S attempts) maxAttempts) as [Hle | Hgt].
  - rewrite decide_True by done.
    cbn [tryGenerate_unfold_clause_1]. rewrite generateShortCode_run.
    cbn -[code_at add_draws tryGenerate].
    change (db (add_draws 4 w)) with (db w). subst again.
    by destruct (sessions (db w) !! code_at e (draws w)).
  - rewrite decide_False by lia. done.
Qed.

(** [tryGenerate] returns the first sampled code that is free, if one of
    the codes it may still sample is, and null otherwise. *)
Lemma tryGenerate_run (e : Env) (left : nat) :
  forall attempts w,
    (attempts + left = maxAttempts)%nat ->
    exists r k,
      tryGenerate e attempts w = (Returned r, add_draws (4 * k) w)
      /\ (k <= left)%nat
      /\ match r with
         | Some id =>
             (1 <= k)%nat /\ id = code_at e (draws w + 4 * (k - 1))
             /\ sessions (db w) !! id = None
         | None => k = left
         end
      /\ (forall j, (j < k - match r with Some _ => 1 | None => 0 end)%nat ->
            is_Some (sessions (db w) !! code_at e (draws w + 4 * j))).
Proof.
  induction left as [| left IH]; intros attempts w Hsum; rewrite tryGenerate_step.
  - rewrite decide_False by lia. exists None, 0%nat.
    rewrite add_draws_0. repeat split; [lia |]. intros j Hj. lia.
  - rewrite decide_True by lia.
    destruct (sessions (db w) !! code_at e (draws w)) as [row |] eqn:Hs.
    + destruct (IH (S attempts) (add_draws 4 w)) as (r & k & Hrun & Hk & Hr & Hbusy);
        [lia |].
      exists r, (S k). rewrite Hrun, add_draws_add.
      replace (4 * k + 4)%nat with (4 * S k)%nat by lia.
      split; [reflexivity |]. split; [lia |]. simpl in Hr, Hbusy. split.
      * destruct r as [id |]; [| lia].
        destruct Hr as (Hk1 & -> & Hfree).
        split; [lia |]. split; [f_equal; lia | done].
      * intros j Hj. destruct j as [| j].
        { replace (draws w + 4 * 0)%nat with (draws w) by lia. by rewrite Hs. }
        replace (draws w + 4 * S j)%nat with (4 + draws w + 4 * j)%nat by lia.
        apply Hbusy. destruct r; lia.
    + exists (Some (code_at e (draws w))), 1%nat.
      split; [reflexivity |]. split; [lia |]. split.
      * split; [lia |]. split; [f_equal; lia | done].
      * intros j Hj. simpl in Hj. lia.
Qed.

Lemma generateSessionId_run (e : Env) (w : World) :
  exists r k,
    generateSessionId e w = (Returned r, add_draws (4 * k) w)
    /\ (k <= maxAttempts)%nat
    /\ match r with
       | Some id =>
           (1 <= k)%nat /\ id = code_at e (draws w + 4 * (k - 1))
           /\ sessions (db w) !! id = None
       | None => k = maxAttempts
       end
    /\ (forall j, (j < k - match r with Some _ => 1 | None => 0 end)%nat ->
          is_Some (sessions (db w) !! code_at e (draws w + 4 * j))).
Proof. by apply (tryGenerate_run e maxAttempts 0 w). Qed.

Lemma post_sessions_exhausted (e : Env) (name : option string) (w w' : World) :
  Js.truthy name = true -> Js.trim (str name) <> "" ->
  generateSessionId e w = (Returned None, w') ->
  post_sessions e name w
  = (Returned (Json 500 (ErrorBody "Failed to generate unique session ID")), w').
Proof.
  intros Hname Htrim Hgen. apply String.eqb_neq in Htrim.
  unfold post_sessions, bind. rewrite Hname, Htrim. cbn [negb orb].
  by rewrite Hgen.
Qed.

(** C7. [generateSessionId] always returns: it samples at most 100
    codes, leaves the store as it is, and when the 100 codes it samples
    are all taken it returns null; whenever it returns null the create
    answers 500 "Failed to generate unique session ID". *)
Theorem generateSessionId_bounded (e : Env) (w : World) :
  exists r k,
    generateSessionId e w = (Returned r, add_draws (4 * k) w)
    /\ (k <= maxAttempts)%nat /\ maxAttempts = 100%nat
    /\ ((forall j, (j < maxAttempts)%nat ->
           is_Some (sessions (db w) !! code_at e (draws w + 4 * j))) ->
        r = None /\ k = maxAttempts)
    /\ (r = None ->
        forall name, Js.truthy name = true -> Js.trim (str name) <> "" ->
          post_sessions e name w
          = (Returned (Json 500 (ErrorBody "Failed to generate unique session ID")),
             add_draws (4 * k) w)).
Proof.
  destruct (generateSessionId_run e w) as (r & k & Hrun & Hk & Hr & Hbusy).
  exists r, k. split; [exact Hrun |]. split; [exact Hk |]. split; [reflexivity |]. split.
  - intros Hall. destruct r as [id |]; [| done].
    destruct Hr as (Hk1 & -> & Hfree).
    destruct (Hall (k - 1)%nat) as [row Hrow]; [lia |]. congruence.
  - intros -> name Hname Htrim. by apply post_sessions_exhausted.
Qed.

Lemma generateSessionId_bounded_witness :
  post_sessions offline (Some "Friday Mixer") taken
  = (Returned (Json 500 (ErrorBody "Failed to generate unique session ID")),
     add_draws 400 taken).
Proof.
  destruct (generateSessionId_bounded offline taken) as (r & k & _ & _ & _ & Hall & H500).
  destruct Hall as [-> ->]; [intros j _; by eexists |].
  apply H500; [reflexivity .. | done].
Defined.

(** ** Creating sessions *)





(** The other routes neither create nor remove a session. *)
Lemma get_session_sessions (sessionId : string) (w : World) o w1 :
  get_session sessionId w = (o, w1) -> w1 = w /\ created_id o = None.
Proof.
  unfold get_session, bind. rewrite select_session_run.
  destruct (sessions (db w) !! sessionId); by intros [= <- <-].
Qed.

Lemma get_sessions_sessions (w : World) o w1 :
  get_sessions w = (o, w1) -> w1 = w /\ created_id o = None.
Proof. by intros [= <- <-]. Qed.

Lemma get_submissions_sessions (sessionId : option string) (w : World) o w1 :
  get_submissions sessionId w = (o, w1) -> w1 = w /\ created_id o = None.
Proof.
  unfold get_submissions. destruct (negb (Js.truthy sessionId)); [by intros [= <- <-] |].
  unfold bind. rewrite select_session_run.
  destruct (sessions (db w) !! str sessionId); by intros [= <- <-].
Qed.

Lemma get_settings_sessions (sessionId : option string) (w : World) o w1 :
  get_settings sessionId w = (o, w1) -> w1 = w /\ created_id o = None.
Proof.
  unfold get_settings. destruct (negb (Js.truthy sessionId)); [by intros [= <- <-] |].
  unfold bind. rewrite select_session_run.
  destruct (sessions (db w) !! str sessionId); by intros [= <- <-].
Qed.

Lemma get_code_sessions (sessionCode : string) (w : World) o w1 :
  get_code sessionCode w = (o, w1) -> w1 = w /\ created_id o = None.
Proof.
  unfold get_code. destruct (Js.test_classes session_code_i sessionCode);
    by intros [= <- <-].
Qed.

Lemma delete_clear_sessions (sessionId : option string) (w : World) o w1 :
  delete_clear sessionId w = (o, w1) ->
  sessions (db w1) = sessions (db w) /\ created_id o = None.
Proof.
  unfold delete_clear. destruct (negb (Js.truthy sessionId)); by intros [= <- <-].
Qed.


Lemma post_submit_sessions (e : Env)
    (songName artist userName sessionId spotifyId : option string) (w : World) o w1 :
  post_submit e songName artist userName sessionId spotifyId w = (o, w1) ->
  sessions (db w1) = sessions (db w) /\ created_id o = None.
Proof.
  unfold post_submit.
  destruct (negb (Js.truthy songName) || negb (Js.truthy artist));
    [by intros [= <- <-] |].
  destruct (negb (Js.truthy sessionId)); [by intros [= <- <-] |].
  unfold bind at 1. rewrite select_session_run.
  destruct (sessions (db w) !! str sessionId); [| by intros [= <- <-]].
  match goal with |- bind ?F _ _ = _ -> _ => set (fetch := F) end.
  assert (returns fetch /\ preserves_db fetch) as [Hret Hdb].
  { subst fetch. destruct (Js.truthy spotifyId).
    - split; [apply returns_try_catch; intros x; apply returns_ret |].
      apply preserves_db_try_catch; [| auto with effects].
      apply preserves_db_bind; [apply getSpotifyAudioFeatures_preserves_db |].
      intros [af |]; auto with effects.
    - split; [apply returns_ret | auto with effects]. }
  unfold bind at 1. destruct (returns_run fetch w Hret) as [[[bpm kc] kr] Hrun].
  rewrite Hrun. destruct (Hdb w) as [Hsame _].
  unfold bind, insert_submission. intros [= <- <-].
  unfold next_tick, set_db. simpl. by rewrite Hsame.
Qed.


(** ** The format of the codes *)





(** ** Sequences of requests *)





(** * Further properties of the multi-tenant server *)

(** ** Clearing a session *)

Lemma delete_clear_run (A : string) (w : World) :
  A <> "" ->
  delete_clear (Some A) w
  = (Returned
       (Json 200
          (Cleared ("Cleared "
                    ++ pretty (Z.of_nat (length (filter
                         (fun r => Submissions.session_id r = A) (submissions (db w)))))
                    ++ " submissions")
             (Z.of_nat (length (filter (fun r => Submissions.session_id r = A)
                                  (submissions (db w))))))),
     set_db (MkDB (sessions (db w))
               (filter (fun r => Submissions.session_id r <> A) (submissions (db w)))
               (seq (db w))) w).
Proof.
  intros HA. apply String.eqb_neq in HA.
  unfold delete_clear, Js.truthy. rewrite HA. reflexivity.
Qed.

Lemma filter_none {A} (P : A -> Prop) `{!forall x, Decision (P x)} (l : list A) :
  (forall x, x ∈ l -> ~ P x) -> filter P l = [].
Proof.
  induction l as [| x l IH]; intros Hno; [done |].
  rewrite filter_cons_False by (apply Hno; left).
  apply IH. intros y Hy. apply Hno. by right.
Qed.

Lemma filter_all {A} (P : A -> Prop) `{!forall x, Decision (P x)} (l : list A) :
  (forall x, x ∈ l -> P x) -> filter P l = l.
Proof.
  induction l as [| x l IH]; intros Hall; [done |].
  rewrite filter_cons_True by (apply Hall; left).
  f_equal. apply IH. intros y Hy. apply Hall. by right.
Qed.

(** Clearing session [A] deletes the rows of [A] and nothing else: the
    rows of every other session stay, in their order, the sessions and
    the row sequence stay, and the count returned is the number of rows
    that went away. *)
Theorem delete_clear_only_that_session (A : string) (w : World) :
  A <> "" ->
  exists n w',
    delete_clear (Some A) w
    = (Returned (Json 200 (Cleared ("Cleared " ++ pretty n ++ " submissions") n)), w')
    /\ n = Z.of_nat (length (submissions (db w))) - Z.of_nat (length (submissions (db w')))
    /\ filter (fun r => Submissions.session_id r = A) (submissions (db w')) = []
    /\ (forall B, B <> A ->
          filter (fun r => Submissions.session_id r = B) (submissions (db w'))
          = filter (fun r => Submissions.session_id r = B) (submissions (db w)))
    /\ sessions (db w') = sessions (db w)
    /\ seq (db w') = seq (db w).
Proof.
  intros HA. do 2 eexists. split; [by apply delete_clear_run |].
  unfold set_db. simpl. repeat split.
  - pose proof (filter_app_complement (fun r => Submissions.session_id r = A)
                  (submissions (db w))) as Hperm.
    apply Permutation_length in Hperm. rewrite length_app in Hperm. lia.
  - apply filter_none. by intros r [Hr _]%list_elem_of_filter.
  - intros B HB. rewrite list_filter_filter. apply list_filter_iff.
    intros r. split; [by intros [? _] | intros <-; by split].
Qed.

Lemma delete_clear_only_that_session_witness :
  exists w',
    delete_clear (Some "AB12") two_parties
    = (Returned (Json 200 (Cleared "Cleared 2 submissions" 2)), w')
    /\ submissions (db w')
       = [wish 2 "CD34" "Dancing Queen" "ABBA" "2025-01-01 20:02:00"].
Proof.
  destruct (delete_clear_only_that_session "AB12" two_parties) as
    (n & w' & Hrun & Hn & _); [done |].
  exists w'. assert (delete_clear (Some "AB12") two_parties
    = (Returned (Json 200 (Cleared "Cleared 2 submissions" 2)),
       set_db (MkDB (sessions (db two_parties))
                 [wish 2 "CD34" "Dancing Queen" "ABBA" "2025-01-01 20:02:00"] 3)
         two_parties)) as Hval by reflexivity.
  rewrite Hrun in Hval.
  assert (n = 2 /\ w' = set_db (MkDB (sessions (db two_parties))
                 [wish 2 "CD34" "Dancing Queen" "ABBA" "2025-01-01 20:02:00"] 3)
         two_parties) as [-> ->] by (split; congruence).
  by split.
Defined.

Lemma get_submissions_run (A : string) (session : Sessions.row) (w : World) :
  A <> "" ->
  sessions (db w) !! A = Some session ->
  get_submissions (Some A) w
  = (Returned (Json 200 (SubmissionRows
       (format_row <$> merge_sort newer_submission
          (filter (fun r => Submissions.session_id r = A) (submissions (db w)))))), w).
Proof.
  intros HA Hs. apply String.eqb_neq in HA.
  unfold get_submissions, bind, Js.truthy. rewrite HA.
  change (str (Some A)) with A. cbn [negb].
  by rewrite select_session_run, Hs.
Qed.

(** After a session has been cleared its listing is empty, and clearing
    it again deletes nothing. *)
Theorem clear_then_list_is_empty (A : string) (w : World) :
  A <> "" ->
  is_Some (sessions (db w) !! A) ->
  exists cleared w1,
    delete_clear (Some A) w = (Returned cleared, w1)
    /\ get_submissions (Some A) w1 = (Returned (Json 200 (SubmissionRows [])), w1)
    /\ delete_clear (Some A) w1
       = (Returned (Json 200 (Cleared "Cleared 0 submissions" 0)), w1).
Proof.
  intros HA [session Hs]. do 2 eexists.
  split; [by apply delete_clear_run |].
  set (w1 := set_db _ w).
  assert (filter (fun r => Submissions.session_id r = A) (submissions (db w1)) = [])
    as Hnone.
  { apply filter_none. by intros r [Hr _]%list_elem_of_filter. }
  split.
  - rewrite (get_submissions_run A session) by done. by rewrite Hnone.
  - rewrite delete_clear_run by done. rewrite Hnone.
    f_equal. subst w1. unfold set_db. simpl. do 2 f_equal.
    rewrite list_filter_filter. apply list_filter_iff. intros r. tauto.
Qed.

Lemma clear_then_list_is_empty_witness :
  exists cleared w1,
    delete_clear (Some "AB12") two_parties = (Returned cleared, w1)
    /\ get_submissions (Some "AB12") w1 = (Returned (Json 200 (SubmissionRows [])), w1).
Proof.
  destruct (clear_then_list_is_empty "AB12" two_parties)
    as (cleared & w1 & Hclear & Hlist & _); [done | by eexists |].
  by exists cleared, w1.
Defined.

(** ** Submitting *)

(** The fetch of the audio features inside the submit: it returns, and
    it asks the provider nothing when no Spotify id came with the
    request. *)
Lemma submit_fetch_run (e : Env) (spotifyId : option string) (w : World) :
  exists f w0,
    (if Js.truthy spotifyId
     then
       try_catch
         (audioFeatures <- getSpotifyAudioFeatures e (str spotifyId) ;;
          match audioFeatures with
          | Some af =>
              ret (AudioFeatures.bpm af, AudioFeatures.key_camelot af,
                   AudioFeatures.key_regular af)
          | None => ret (None, None, None)
          end)
         (fun _ => ret (None, None, None))
     else ret (None, None, None)) w = (Returned f, w0)
    /\ db w0 = db w
    /\ (Js.truthy spotifyId = false -> f = (None, None, None) /\ w0 = w).
Proof.
  destruct (Js.truthy spotifyId).
  - match goal with |- context [try_catch ?b ?h w] => set (c := try_catch b h) end.
    assert (returns c /\ preserves_db c) as [Hret Hdb].
    { subst c. split; [apply returns_try_catch; intros x; apply returns_ret |].
      apply preserves_db_try_catch; [| auto with effects].
      apply preserves_db_bind; [apply getSpotifyAudioFeatures_preserves_db |].
      intros [af |]; auto with effects. }
    destruct (returns_run c w Hret) as [f Hf]. exists f, (c w).2.
    split; [exact Hf |]. split; [apply Hdb | done].
  - exists (None, None, None), w. by repeat split.
Qed.

Lemma post_submit_run (e : Env) (songName artist sessionId : string)
    (userName spotifyId : option string) (session : Sessions.row) (w : World) :
  songName <> "" -> artist <> "" -> sessionId <> "" ->
  sessions (db w) !! sessionId = Some session ->
  exists bpm keyCamelot keyRegular created_at w1,
    post_submit e (Some songName) (Some artist) userName (Some sessionId) spotifyId w
    = (Returned (Json 200 (SubmissionSaved "Submission saved successfully"
                             (seq (db w) + 1))), w1)
    /\ db w1
       = MkDB (sessions (db w))
           (submissions (db w)
            ++ [Submissions.Row (seq (db w) + 1) sessionId songName artist
                  (Js.or_null userName) (Some songName) (Some artist)
                  bpm keyCamelot keyRegular
                  (if Js.truthy spotifyId then 1 else 0) created_at])
           (seq (db w) + 1)
    /\ (Js.truthy spotifyId = false ->
        bpm = None /\ keyCamelot = None /\ keyRegular = None
        /\ tick w1 = S (tick w)).
Proof.
  intros Hsong Hartist Hid Hs.
  apply String.eqb_neq in Hsong, Hartist, Hid.
  unfold post_submit, Js.truthy at 1 2 3. rewrite Hsong, Hartist, Hid.
  cbn [negb orb]. change (str (Some sessionId)) with sessionId.
  change (str (Some songName)) with songName. change (str (Some artist)) with artist.
  unfold bind at 1. rewrite select_session_run, Hs.
  destruct (submit_fetch_run e spotifyId w) as ([[bpm kc] kr] & w0 & Hf & Hdb & Hnone).
  unfold bind at 1. rewrite Hf.
  unfold bind, insert_submission, ret, next_tick, set_db. simpl. rewrite Hdb.
  exists bpm, kc, kr, (CURRENT_TIMESTAMP e (tick w0)).
  eexists. split; [reflexivity |]. simpl.
  split; [reflexivity |]. intros Hno. destruct (Hnone Hno) as [[= -> -> ->] ->]. done.
Qed.

(** A submit with a song, an artist and the id of an existing session is
    always saved, whatever the provider does: the answer carries the next
    row id, and one row is appended that keeps the submitted song and
    artist both as current and as original values; without a Spotify id
    its bpm and keys are null and the provider is not called. *)
Theorem post_submit_saved (e : Env) (songName artist sessionId : string)
    (userName spotifyId : option string) (session : Sessions.row) (w : World) :
  songName <> "" -> artist <> "" -> sessionId <> "" ->
  sessions (db w) !! sessionId = Some session ->
  exists bpm keyCamelot keyRegular created_at w1,
    post_submit e (Some songName) (Some artist) userName (Some sessionId) spotifyId w
    = (Returned (Json 200 (SubmissionSaved "Submission saved successfully"
                             (seq (db w) + 1))), w1)
    /\ db w1
       = MkDB (sessions (db w))
           (submissions (db w)
            ++ [Submissions.Row (seq (db w) + 1) sessionId songName artist
                  (Js.or_null userName) (Some songName) (Some artist)
                  bpm keyCamelot keyRegular
                  (if Js.truthy spotifyId then 1 else 0) created_at])
           (seq (db w) + 1)
    /\ (Js.truthy spotifyId = false ->
        bpm = None /\ keyCamelot = None /\ keyRegular = None
        /\ tick w1 = S (tick w)).
Proof. apply post_submit_run. Qed.

Lemma post_submit_saved_witness :
  exists w1,
    post_submit features_down (Some "yesterday") (Some "beatles") None (Some "AB12")
      (Some "3BQHpFgAp4l80e1XslIjNI") two_parties
    = (Returned (Json 200 (SubmissionSaved "Submission saved successfully" 4)), w1)
    /\ length (submissions (db w1)) = 4%nat.
Proof.
  destruct (post_submit_saved features_down "yesterday" "beatles" "AB12" None
              (Some "3BQHpFgAp4l80e1XslIjNI") (party "AB12" "Friday Mixer") two_parties)
    as (bpm & kc & kr & ts & w1 & Hrun & Hdb & _); [done .. | reflexivity |].
  exists w1. split; [exact Hrun |]. by rewrite Hdb.
Defined.

Lemma format_row_with_created_at (r : Submissions.row) :
  exists t, format_row r = Submissions.with_created_at t r.
Proof.
  unfold format_row. repeat case_match; try by eexists.
  all: exists (Submissions.created_at r); by destruct r.
Qed.

(** What has just been submitted is in the listing of its session, under
    the id the submit returned and with the song and artist as sent; the
    listing has one row more than the session had. *)
Theorem submit_then_list (e : Env) (songName artist sessionId : string)
    (userName spotifyId : option string) (session : Sessions.row) (w : World) :
  songName <> "" -> artist <> "" -> sessionId <> "" ->
  sessions (db w) !! sessionId = Some session ->
  exists message id w1 rows r,
    post_submit e (Some songName) (Some artist) userName (Some sessionId) spotifyId w
    = (Returned (Json 200 (SubmissionSaved message id)), w1)
    /\ get_submissions (Some sessionId) w1
       = (Returned (Json 200 (SubmissionRows rows)), w1)
    /\ r ∈ rows
    /\ Submissions.id r = id
    /\ Submissions.session_id r = sessionId
    /\ Submissions.song_name r = songName
    /\ Submissions.artist r = artist
    /\ Submissions.original_song_name r = Some songName
    /\ Submissions.original_artist r = Some artist
    /\ length rows
       = S (length (filter (fun r => Submissions.session_id r = sessionId)
                      (submissions (db w)))).
Proof.
  intros Hsong Hartist Hid Hs.
  destruct (post_submit_run e songName artist sessionId userName spotifyId session w)
    as (bpm & kc & kr & ts & w1 & Hrun & Hdb & _); [done .. |].
  set (new := Submissions.Row (seq (db w) + 1) sessionId songName artist
                (Js.or_null userName) (Some songName) (Some artist) bpm kc kr
                (if Js.truthy spotifyId then 1 else 0) ts) in *.
  assert (sessions (db w1) !! sessionId = Some session) as Hs1 by by rewrite Hdb.
  pose proof (get_submissions_run sessionId session w1 Hid Hs1) as Hlist.
  destruct (format_row_with_created_at new) as [t Ht].
  do 4 eexists. exists (format_row new).
  split; [exact Hrun |]. split; [exact Hlist |]. split; [| rewrite Ht; repeat split].
  - apply list_elem_of_fmap_2. rewrite merge_sort_Permutation.
    apply list_elem_of_filter. split; [done |]. rewrite Hdb. simpl.
    apply elem_of_app. right. by left.
  - rewrite length_fmap, merge_sort_Permutation, Hdb. simpl.
    rewrite filter_app, length_app. simpl.
    rewrite filter_cons_True by done. simpl. lia.
Qed.

Lemma submit_then_list_witness :
  exists message id w1 rows,
    post_submit offline (Some "Waterloo") (Some "ABBA") None (Some "CD34") None two_parties
    = (Returned (Json 200 (SubmissionSaved message id)), w1)
    /\ get_submissions (Some "CD34") w1 = (Returned (Json 200 (SubmissionRows rows)), w1)
    /\ length rows = 2%nat.
Proof.
  destruct (submit_then_list offline "Waterloo" "ABBA" "CD34" None None
              (party "CD34" "Wedding") two_parties)
    as (message & id & w1 & rows & r & Hrun & Hlist & _ & _ & _ & _ & _ & _ & _ & Hlen);
    [done .. | reflexivity |].
  by exists message, id, w1, rows.
Defined.

(** ** What each route does to the tables *)

Lemma post_sessions_db (e : Env) (name : option string) (w : World) o w1 :
  post_sessions e name w = (o, w1) ->
  db w1 = db w
  \/ exists id row,
       sessions (db w) !! id = None
       /\ db w1 = MkDB (<[id := row]> (sessions (db w))) (submissions (db w)) (seq (db w)).
Proof.
  unfold post_sessions.
  destruct (negb (Js.truthy name) || String.eqb (Js.trim (str name)) "").
  { intros [= <- <-]. by left. }
  unfold bind.
  destruct (generateSessionId_run e w) as (r & k & -> & _ & Hr & _).
  destruct r as [id |]; unfold Js.truthy; cbn [negb].
  2: { intros [= <- <-]. by left. }
  destruct Hr as (_ & _ & Hfree).
  destruct (String.eqb id ""); cbn [negb].
  { intros [= <- <-]. by left. }
  change (str (Some id)) with id. unfold insert_session.
  change (db (add_draws (4 * k) w)) with (db w). rewrite Hfree.
  unfold gets, ret. intros [= <- <-]. right. by do 2 eexists.
Qed.

Lemma post_submit_db (e : Env)
    (songName artist userName sessionId spotifyId : option string) (w : World) o w1 :
  post_submit e songName artist userName sessionId spotifyId w = (o, w1) ->
  db w1 = db w
  \/ exists row,
       is_Some (sessions (db w) !! Submissions.session_id row)
       /\ Submissions.id row = seq (db w) + 1
       /\ db w1 = MkDB (sessions (db w)) (submissions (db w) ++ [row]) (seq (db w) + 1).
Proof.
  unfold post_submit.
  destruct (negb (Js.truthy songName) || negb (Js.truthy artist));
    [intros [= <- <-]; by left |].
  destruct (negb (Js.truthy sessionId)); [intros [= <- <-]; by left |].
  unfold bind at 1. rewrite select_session_run.
  destruct (sessions (db w) !! str sessionId) as [session |] eqn:Hs;
    [| intros [= <- <-]; by left].
  destruct (submit_fetch_run e spotifyId w) as ([[bpm kc] kr] & w0 & Hf & Hdb & _).
  unfold bind at 1. rewrite Hf.
  unfold bind, insert_submission, ret. intros [= <- <-]. right.
  exists (Submissions.Row (seq (db w) + 1) (str sessionId) (str songName) (str artist)
            (Js.or_null userName) (Some (str songName)) (Some (str artist)) bpm kc kr
            (if Js.truthy spotifyId then 1 else 0) (CURRENT_TIMESTAMP e (tick w0))).
  split; [by eexists |]. split; [reflexivity |].
  unfold next_tick, set_db. cbn [db]. by rewrite Hdb.
Qed.

Lemma consistent_insert_session (d : DB) (id : string) (row : Sessions.row) :
  consistent d ->
  consistent (MkDB (<[id := row]> (sessions d)) (submissions d) (seq d)).
Proof.
  intros (Href & Hseq & Hnodup). split; [| by split]. simpl.
  intros r Hr. rewrite lookup_insert_is_Some.
  destruct (decide (id = Submissions.session_id r)); [by left |].
  right. split; [done | by apply Href].
Qed.

Lemma consistent_insert_submission (d : DB) (row : Submissions.row) :
  consistent d ->
  is_Some (sessions d !! Submissions.session_id row) ->
  Submissions.id row = seq d + 1 ->
  consistent (MkDB (sessions d) (submissions d ++ [row]) (seq d + 1)).
Proof.
  intros (Href & Hseq & Hnodup) Hs Hid. split; [| split]; simpl.
  - intros r [Hr | ->%list_elem_of_singleton]%elem_of_app; [by apply Href | done].
  - intros r [Hr | ->%list_elem_of_singleton]%elem_of_app; [| lia].
    specialize (Hseq r Hr). lia.
  - rewrite fmap_app. apply NoDup_app. split; [done |]. split; [| apply NoDup_singleton].
    intros i (r & -> & Hr)%list_elem_of_fmap [= Heq]%list_elem_of_singleton.
    specialize (Hseq r Hr). lia.
Qed.

Lemma consistent_delete (d : DB) (A : string) :
  consistent d ->
  consistent (MkDB (sessions d)
                (filter (fun r => Submissions.session_id r <> A) (submissions d)) (seq d)).
Proof.
  intros (Href & Hseq & Hnodup). split; [| split]; simpl.
  - intros r [_ Hr]%list_elem_of_filter. by apply Href.
  - intros r [_ Hr]%list_elem_of_filter. by apply Hseq.
  - eapply sublist_NoDup; [exact Hnodup | apply fmap_sublist, sublist_filter].
Qed.

Lemma consistent_alter (d : DB) (f : Sessions.row -> Sessions.row) (id : string) :
  consistent d ->
  consistent (MkDB (alter f id (sessions d)) (submissions d) (seq d)).
Proof.
  intros (Href & Hseq & Hnodup). split; [| by split]. simpl.
  intros r Hr. destruct (Href r Hr) as [row Hrow].
  destruct (decide (id = Submissions.session_id r)) as [-> | Hne].
  - rewrite lookup_alter_eq, Hrow. by eexists.
  - rewrite lookup_alter_ne by done. by eexists.
Qed.

Lemma handle_consistent (e : Env) (r : Request) (w : World) o w1 :
  handle e r w = (o, w1) -> consistent (db w) -> consistent (db w1).
Proof.
  destruct r; simpl; intros Hrun Hc.
  - apply post_sessions_db in Hrun as [-> | (id & row & _ & ->)]; [done |].
    by apply consistent_insert_session.
  - by apply get_session_sessions in Hrun as [-> _].
  - by apply get_sessions_sessions in Hrun as [-> _].
  - apply post_submit_db in Hrun as [-> | (row & Hs & Hid & ->)]; [done |].
    by apply consistent_insert_submission.
  - by apply get_submissions_sessions in Hrun as [-> _].
  - unfold delete_clear in Hrun.
    destruct (negb (Js.truthy sessionId)); injection Hrun as <- <-; [done |].
    by apply consistent_delete.
  - unfold post_update_settings in Hrun.
    destruct (negb (Js.truthy sessionId)); injection Hrun as <- <-; [done |].
    by apply consistent_alter.
  - by apply get_settings_sessions in Hrun as [-> _].
  - by apply get_code_sessions in Hrun as [-> _].
Qed.

Lemma serve_consistent (e : Env) (rs : list Request) :
  forall w os w',
    serve e rs w = (os, w') -> consistent (db w) -> consistent (db w').
Proof.
  induction rs as [| r rs IH]; intros w os w'; simpl.
  - by intros [= <- <-].
  - destruct (handle e r w) as [o w1] eqn:Hr.
    destruct (serve e rs w1) as [os' w2] eqn:Hrs. intros [= <- <-] Hc.
    eapply IH; [exact Hrs |]. by eapply handle_consistent.
Qed.

Lemma consistent_empty : consistent empty_db.
Proof.
  split; [| split]; simpl.
  - by intros r Hr%elem_of_nil.
  - by intros r Hr%elem_of_nil.
  - apply NoDup_nil_2.
Qed.

(** Starting from the empty store, whatever requests are served, every
    stored request refers to a session that exists, and the row ids are
    pairwise distinct and never above the sequence. *)
Theorem reachable_store_consistent (e : Env) (rs : list Request) os w' :
  serve e rs fresh = (os, w') ->
  (forall r, r ∈ submissions (db w') ->
     is_Some (sessions (db w') !! Submissions.session_id r))
  /\ (forall r, r ∈ submissions (db w') -> Submissions.id r <= seq (db w'))
  /\ NoDup (Submissions.id <$> submissions (db w')).
Proof. intros Hrun. exact (serve_consistent e rs fresh os w' Hrun consistent_empty). Qed.

Lemma reachable_store_consistent_witness :
  exists os w',
    serve features_down
      [PostSessions (Some "Friday Mixer");
       PostSubmit (Some "yesterday") (Some "beatles") None (Some "ABCD") None;
       PostSubmit (Some "hey jude") (Some "beatles") None (Some "ABCD") None;
       DeleteClear (Some "ZZZZ")] fresh = (os, w')
    /\ Submissions.id <$> submissions (db w') = [1; 2]
    /\ NoDup (Submissions.id <$> submissions (db w')).
Proof.
  destruct (serve features_down _ fresh) as [os w'] eqn:Hrun.
  exists os, w'. split; [reflexivity |].
  destruct (reachable_store_consistent features_down _ os w' Hrun) as (_ & _ & Hnodup).
  split; [| exact Hnodup].
  vm_compute in Hrun. by injection Hrun as _ <-.
Defined.

(** In a store reached from the empty one, clearing a session that does
    not exist deletes no row and changes nothing. *)
Theorem reachable_clear_unknown (e : Env) (rs : list Request) os (w : World)
    (A : string) :
  serve e rs fresh = (os, w) ->
  A <> "" ->
  sessions (db w) !! A = None ->
  delete_clear (Some A) w
  = (Returned (Json 200 (Cleared "Cleared 0 submissions" 0)), w).
Proof.
  intros Hrun HA Hnone.
  destruct (serve_consistent e rs fresh os w Hrun consistent_empty) as (Href & _ & _).
  assert (forall r, r ∈ submissions (db w) -> Submissions.session_id r <> A) as Hother.
  { intros r Hr <-. destruct (Href r Hr) as [row Hrow]. congruence. }
  rewrite delete_clear_run by done.
  rewrite (filter_none (fun r => Submissions.session_id r = A)) by done.
  rewrite (filter_all (fun r => Submissions.session_id r <> A)) by done.
  by rewrite set_db_same.
Qed.

Lemma reachable_clear_unknown_witness :
  exists os w,
    serve features_down
      [PostSessions (Some "Friday Mixer");
       PostSubmit (Some "yesterday") (Some "beatles") None (Some "ABCD") None] fresh
    = (os, w)
    /\ delete_clear (Some "ZZZZ") w
       = (Returned (Json 200 (Cleared "Cleared 0 submissions" 0)), w).
Proof.
  destruct (serve features_down _ fresh) as [os w] eqn:Hrun.
  exists os, w. split; [reflexivity |].
  apply (reachable_clear_unknown features_down _ os w "ZZZZ" Hrun); [done |].
  vm_compute in Hrun. by injection Hrun as _ <-.
Defined.

(** ** Creating a session, in full *)

Lemma post_sessions_outcome (e : Env) (name : option string) (w : World) o w1 :
  post_sessions e name w = (o, w1) ->
  (o = Returned (Json 400 (ErrorBody "Session name is required")) /\ w1 = w)
  \/ (o = Returned (Json 500 (ErrorBody "Failed to generate unique session ID"))
      /\ db w1 = db w)
  \/ exists id k,
       id <> "" /\ sessions (db w) !! id = None
       /\ Js.trim (str name) <> ""
       /\ o = Returned (Json 200 (SessionCreated id (Js.trim (str name))
                                    (Date_toISOString e (S (tick w)))))
       /\ w1 = next_tick
                 (set_db (MkDB (<[id := Sessions.Row id (Js.trim (str name))
                                          (CURRENT_TIMESTAMP e (tick w)) 1
                                          (Some (Js.trim (str name)))
                                          (Some "Submit your song below")
                                          (Some "#000")]> (sessions (db w)))
                            (submissions (db w)) (seq (db w)))
                    (add_draws (4 * k) w)).
Proof.
  unfold post_sessions.
  destruct (Js.truthy name); cbn [negb orb]; [| intros [= <- <-]; by left].
  destruct (String.eqb_spec (Js.trim (str name)) "") as [Htrim | Htrim];
    [intros [= <- <-]; by left |].
  unfold bind.
  destruct (generateSessionId_run e w) as (r & k & -> & _ & Hr & _).
  destruct r as [id |]; unfold Js.truthy; cbn [negb].
  2: { intros [= <- <-]. right. by left. }
  destruct Hr as (_ & _ & Hfree).
  destruct (String.eqb_spec id "") as [Hid | Hid]; cbn [negb].
  { intros [= <- <-]. right. by left. }
  change (str (Some id)) with id. unfold insert_session.
  change (db (add_draws (4 * k) w)) with (db w). rewrite Hfree.
  unfold gets, ret. intros [= <- <-]. right. right. by exists id, k.
Qed.


(** A create whose name is missing, empty or white space only is a 400
    and changes nothing: no code is sampled, no row is written. *)
Theorem post_sessions_blank_name (e : Env) (name : option string) (w : World) :
  name = None \/ blank (str name) = true ->
  post_sessions e name w
  = (Returned (Json 400 (ErrorBody "Session name is required")), w).
Proof.
  intros Hname. unfold post_sessions.
  destruct (Js.truthy name); cbn [negb orb]; [| done].
  destruct Hname as [-> | Hblank]; [done |].
  apply trim_blank in Hblank. by rewrite Hblank.
Qed.

Lemma post_sessions_blank_name_witness :
  post_sessions features_down (Some "   ") two_parties
  = (Returned (Json 400 (ErrorBody "Session name is required")), two_parties).
Proof. apply post_sessions_blank_name. by right. Defined.

(** After a successful create the session can be read back: its row has
    the returned id, the trimmed name, the active flag, and the name and
    the two fixed defaults as settings; the settings read shows the
    same; the requests and the other sessions are as before. *)
Theorem create_then_read (e : Env) (name : option string) (w : World)
    (id sessionName createdAt : string) (w1 : World) :
  post_sessions e name w
  = (Returned (Json 200 (SessionCreated id sessionName createdAt)), w1) ->
  sessionName = Js.trim (str name)
  /\ sessions (db w) !! id = None
  /\ (exists created_at,
        get_session id w1
        = (Returned (Json 200 (SessionFound
             (Sessions.Row id sessionName created_at 1 (Some sessionName)
                (Some "Submit your song below") (Some "#000")))), w1))
  /\ get_settings (Some id) w1
     = (Returned (Json 200 (Settings (Some sessionName) "Submit your song below" "#000")),
        w1)
  /\ submissions (db w1) = submissions (db w)
  /\ (forall other, other <> id -> sessions (db w1) !! other = sessions (db w) !! other).
Proof.
  intros Hrun.
  apply post_sessions_outcome in Hrun
    as [[[=] _] | [[[=] _] | (id' & k & Hid & Hfree & Htrim & [= <- <- _] & ->)]].
  split; [done |]. split; [done |].
  unfold get_session, get_settings, bind, Js.truthy.
  apply String.eqb_neq in Hid. rewrite Hid. cbn [negb].
  change (str (Some id)) with id. rewrite !select_session_run.
  unfold next_tick, set_db. cbn [db sessions submissions].
  rewrite !lookup_insert_eq. split; [by eexists |]. split.
  - unfold ret, set_or. simpl.
    destruct (negb (String.eqb sessionName "") &&
              negb (String.eqb (Js.trim sessionName) "")); reflexivity.
  - split; [done |]. intros other Hother. by rewrite lookup_insert_ne.
Qed.

Lemma create_then_read_witness :
  exists w1,
    get_settings (Some "ABCD") w1
    = (Returned (Json 200 (Settings (Some "Friday Mixer") "Submit your song below"
                             "#000")), w1).
Proof.
  destruct (post_sessions features_down (Some " Friday Mixer ") fresh) as [o w1] eqn:Hrun.
  exists w1.
  assert (o = Returned (Json 200 (SessionCreated "ABCD" "Friday Mixer"
                                    "2025-01-01T00:00:00.000Z"))) as ->.
  { vm_compute in Hrun. by injection Hrun as <- _. }
  by destruct (create_then_read features_down (Some " Friday Mixer ") fresh
                 "ABCD" "Friday Mixer" "2025-01-01T00:00:00.000Z" w1 Hrun)
    as (_ & _ & _ & Hsettings & _).
Defined.

(** ** Updating the settings of a session *)

(** An update of the settings of session [A] always answers success
    and touches nothing but the three settings of [A]: its id, name,
    creation time and active flag stay, the other sessions stay, the
    requests stay. *)
Theorem post_update_settings_isolated (A : string)
    (welcomeMessage subtitleMessage background : option string) (w : World) :
  A <> "" ->
  exists w1,
    post_update_settings (Some A) welcomeMessage subtitleMessage background w
    = (Returned (Json 200 Success), w1)
    /\ submissions (db w1) = submissions (db w)
    /\ seq (db w1) = seq (db w)
    /\ (forall B, B <> A -> sessions (db w1) !! B = sessions (db w) !! B)
    /\ (forall row, sessions (db w) !! A = Some row ->
          exists row1,
            sessions (db w1) !! A = Some row1
            /\ Sessions.id row1 = Sessions.id row
            /\ Sessions.name row1 = Sessions.name row
            /\ Sessions.created_at row1 = Sessions.created_at row
            /\ Sessions.is_active row1 = Sessions.is_active row).
Proof.
  intros HA. apply String.eqb_neq in HA.
  unfold post_update_settings, Js.truthy. rewrite HA. cbn [negb].
  eexists. split; [reflexivity |].
  unfold set_db. cbn [db sessions submissions seq]. change (str (Some A)) with A.
  repeat split.
  - intros B HB. by rewrite lookup_alter_ne.
  - intros row Hrow. rewrite lookup_alter_eq, Hrow. by eexists.
Qed.

Lemma post_update_settings_isolated_witness :
  exists w1,
    post_update_settings (Some "AB12") (Some "Hello") None None two_parties
    = (Returned (Json 200 Success), w1)
    /\ sessions (db w1) !! "CD34" = Some (party "CD34" "Wedding").
Proof.
  destruct (post_update_settings_isolated "AB12" (Some "Hello") None None two_parties)
    as (w1 & Hrun & _ & _ & Hothers & _); [done |].
  exists w1. split; [exact Hrun |]. by rewrite Hothers.
Defined.

(** ** Reading *)

(** The five reading routes always answer and leave the whole state,
    tables and token cache, as it was. *)
Theorem read_only_unchanged (e : Env) (r : Request) (w : World) :
  read_only r = true ->
  exists response, handle e r w = (Returned response, w).
Proof.
  destruct r; try done; intros _; simpl.
  - unfold get_session, bind. rewrite select_session_run.
    destruct (sessions (db w) !! sessionId); by eexists.
  - by eexists.
  - unfold get_submissions.
    destruct (negb (Js.truthy sessionId)); [by eexists |].
    unfold bind. rewrite select_session_run.
    destruct (sessions (db w) !! str sessionId); by eexists.
  - unfold get_settings.
    destruct (negb (Js.truthy sessionId)); [by eexists |].
    unfold bind. rewrite select_session_run.
    destruct (sessions (db w) !! str sessionId); by eexists.
  - unfold get_code.
    destruct (Js.test_classes session_code_i sessionCode); by eexists.
Qed.

Lemma read_only_unchanged_witness :
  exists response,
    handle offline (GetSession "AB12") two_parties = (Returned response, two_parties).
Proof. by apply read_only_unchanged. Defined.

(** ** Order of the listings *)

Lemma newer_submission_total : Total newer_submission.
Proof.
  intros a b. unfold newer_submission.
  destruct (String.leb_total (Submissions.created_at b) (Submissions.created_at a))
    as [H | H]; rewrite H; [by left | by right].
Qed.

Lemma newer_session_total : Total newer_session.
Proof.
  intros a b. unfold newer_session.
  destruct (String.leb_total (Sessions.created_at b) (Sessions.created_at a))
    as [H | H]; rewrite H; [by left | by right].
Qed.

(** The listing of a session comes newest first: it is the image under
    the timestamp formatting of the stored rows of the session, arranged
    so that no row is followed by one with a later creation time. *)
Theorem get_submissions_newest_first (A : string) (w : World) :
  A <> "" ->
  is_Some (sessions (db w) !! A) ->
  exists stored,
    get_submissions (Some A) w
    = (Returned (Json 200 (SubmissionRows (format_row <$> stored))), w)
    /\ stored ≡ₚ filter (fun r => Submissions.session_id r = A) (submissions (db w))
    /\ Sorted (fun a b => String.leb (Submissions.created_at b) (Submissions.created_at a))
         stored.
Proof.
  intros HA [session Hs]. eexists.
  split; [by apply (get_submissions_run A session) |].
  split; [apply merge_sort_Permutation |].
  pose proof newer_submission_total as Htotal.
  apply (Sorted_merge_sort newer_submission).
Qed.

Lemma get_submissions_newest_first_witness :
  exists stored,
    get_submissions (Some "AB12") two_parties
    = (Returned (Json 200 (SubmissionRows (format_row <$> stored))), two_parties)
    /\ length stored = 2%nat.
Proof.
  destruct (get_submissions_newest_first "AB12" two_parties)
    as (stored & Hrun & Hperm & _); [done | by eexists |].
  exists stored. split; [exact Hrun |]. by rewrite Hperm.
Defined.

(** The list of sessions holds exactly the active sessions of the store,
    newest first, and reading it changes nothing. *)
Theorem get_sessions_active_newest_first (w : World) :
  exists rows,
    get_sessions w = (Returned (Json 200 (SessionList rows)), w)
    /\ (forall row, row ∈ rows <->
          Sessions.is_active row = 1 /\ exists id, sessions (db w) !! id = Some row)
    /\ Sorted (fun a b => String.leb (Sessions.created_at b) (Sessions.created_at a)) rows.
Proof.
  eexists. split; [reflexivity |]. split.
  - intros row. rewrite merge_sort_Permutation, list_elem_of_filter, list_elem_of_fmap.
    split.
    + intros [Hactive ([id row'] & -> & Hin)]. split; [done |].
      exists id. by apply elem_of_map_to_list.
    + intros [Hactive [id Hid]]. split; [done |].
      exists (id, row). split; [done |]. by apply elem_of_map_to_list.
  - pose proof newer_session_total as Htotal.
    apply (Sorted_merge_sort newer_session).
Qed.

(** ** Timestamps of the listing *)

Lemma digit_not_space (c : ascii) :
  Js.is_digit c = true -> Ascii.eqb c " " = false.
Proof.
  intros H. destruct (Ascii.eqb_spec c " ") as [-> | ?]; [| done].
  by vm_compute in H.
Qed.

Lemma is_char_eq (x c : ascii) : Js.is_char x c = true -> c = x.
Proof. unfold Js.is_char. intros H. symmetry. by apply Ascii.eqb_eq. Qed.

Lemma sqlite_to_iso (s : string) :
  Js.test_classes sqlite_datetime s = true ->
  Js.test_classes iso_datetime (Js.replace_first " " "T" s ++ ".000Z") = true.
Proof.
  unfold sqlite_datetime, iso_datetime.
  cbv zeta.
  do 19 (destruct s as [| ? s]; [by cbn [Js.test_classes]; rewrite ?andb_false_r |]).
  destruct s; [| by cbn [Js.test_classes]; rewrite !andb_false_r].
  cbn [Js.test_classes]. rewrite !andb_true_iff.
  intros (H1 & H2 & H3 & H4 & H5 & H6 & H7 & H8 & H9 & H10 & H11 & H12 & H13 & H14
          & H15 & H16 & H17 & H18 & H19 & _).
  apply is_char_eq in H5, H8, H11, H14, H17. subst.
  cbn [Js.replace_first].
  rewrite !(digit_not_space _ H1), !(digit_not_space _ H2), !(digit_not_space _ H3),
    !(digit_not_space _ H4), !(digit_not_space _ H6), !(digit_not_space _ H7),
    !(digit_not_space _ H9), !(digit_not_space _ H10).
  simpl. by rewrite H1, H2, H3, H4, H6, H7, H9, H10, H12, H13, H15, H16, H18, H19.
Qed.

(** The listing normalises timestamps and nothing else: a creation time
    that, trimmed, has the shape [YYYY-MM-DD HH:MM:SS] comes out as
    [YYYY-MM-DDTHH:MM:SS.000Z]; a row with any other creation time comes
    out untouched; all other columns are always kept. *)
Theorem format_row_timestamp (r : Submissions.row) :
  (Js.test_classes sqlite_datetime (Js.trim (Submissions.created_at r)) = true ->
   Js.test_classes iso_datetime (Submissions.created_at (format_row r)) = true)
  /\ (Js.test_classes sqlite_datetime (Js.trim (Submissions.created_at r)) = false ->
      format_row r = r)
  /\ exists t, format_row r = Submissions.with_created_at t r.
Proof.
  split; [| split; [| apply format_row_with_created_at]].
  - intros Hshape. unfold format_row. rewrite Hshape.
    destruct (Js.truthy (Some (Submissions.created_at r))) eqn:Htruthy.
    + simpl. by apply sqlite_to_iso.
    + unfold Js.truthy in Htruthy. apply negb_false_iff, String.eqb_eq in Htruthy.
      rewrite Htruthy in Hshape. done.
  - intros Hshape. unfold format_row. rewrite Hshape. by case_match.
Qed.

Lemma format_row_timestamp_witness :
  Submissions.created_at
    (format_row (wish 1 "AB12" "Yesterday" "The Beatles" " 2025-01-01 20:01:00 "))
  = "2025-01-01T20:01:00.000Z"
  /\ Js.test_classes iso_datetime "2025-01-01T20:01:00.000Z" = true.
Proof.
  destruct (format_row_timestamp
              (wish 1 "AB12" "Yesterday" "The Beatles" " 2025-01-01 20:01:00 "))
    as (Hiso & _ & _).
  split; [reflexivity |]. by apply Hiso.
Defined.

(** ** The token cache *)

Lemma cache_valid_test (w : World) (now : Z) :
  Js.truthy (spotifyAccessToken w) && Js.truthy_num (tokenExpiry w)
  && match tokenExpiry w with Some x => now <? x | None => false end = true
  <-> cache_valid w now.
Proof.
  unfold cache_valid, Js.truthy, Js.truthy_num.
  destruct (spotifyAccessToken w) as [t |], (tokenExpiry w) as [x |]; simpl.
  - rewrite !andb_true_iff, !negb_true_iff, String.eqb_neq, Z.eqb_neq, Z.ltb_lt.
    split.
    + intros [[Ht Hx] Hnow]. by exists t, x.
    + intros (t' & x' & [= <-] & Ht & [= <-] & Hx & Hnow). done.
  - rewrite andb_false_r. split; [done | by intros (? & ? & _ & _ & [=] & _)].
  - split; [done | by intros (? & ? & [=] & _)].
  - split; [done | by intros (? & ? & [=] & _)].
Qed.

Lemma getSpotifyAccessToken_hit (e : Env) (w : World) :
  cache_valid w (Date_now e (tick w)) ->
  getSpotifyAccessToken e w = (Returned (spotifyAccessToken w), w).
Proof.
  intros Hvalid. apply cache_valid_test in Hvalid.
  unfold getSpotifyAccessToken, Date_now_, bind, gets. simpl. by rewrite Hvalid.
Qed.

Lemma getSpotifyAccessToken_miss (e : Env) (w : World) :
  ~ cache_valid w (Date_now e (tick w)) ->
  getSpotifyAccessToken e w
  = match token_endpoint e (tick w) with
    | Body b =>
        (Returned (access_token b),
         set_token (access_token b)
           ((fun s => Date_now e (S (tick w)) + s * 1000 - 60000) <$> expires_in b)
           (next_tick w))
    | _ => (Returned None, next_tick w)
    end.
Proof.
  intros Hvalid. rewrite <- cache_valid_test in Hvalid.
  apply not_true_is_false in Hvalid.
  unfold getSpotifyAccessToken, Date_now_, bind, gets. simpl. rewrite Hvalid.
  unfold try_catch, await, bind, gets, modify. simpl.
  by destruct (token_endpoint e (tick w)).
Qed.



(** Without a usable cached token (none, an empty one, an expiry that is
    unset or has passed) the provider is asked; when that exchange fails
    the result is null and the cache is left exactly as it was, stale
    token included. *)
Theorem token_exchange_failure (e : Env) (w : World) :
  ~ cache_valid w (Date_now e (tick w)) ->
  (forall b, token_endpoint e (tick w) <> Body b) ->
  exists w1,
    getSpotifyAccessToken e w = (Returned None, w1)
    /\ spotifyAccessToken w1 = spotifyAccessToken w
    /\ tokenExpiry w1 = tokenExpiry w
    /\ db w1 = db w
    /\ tick w1 = S (tick w).
Proof.
  intros Hvalid Hfail. rewrite getSpotifyAccessToken_miss by done.
  destruct (token_endpoint e (tick w)) as [m | | b]; try by eexists.
  by destruct (Hfail b).
Qed.

Lemma token_exchange_failure_witness :
  exists w1,
    getSpotifyAccessToken offline (MkWorld empty_db (Some "old") (Some 5) 7 0)
    = (Returned None, w1)
    /\ spotifyAccessToken w1 = Some "old".
Proof.
  destruct (token_exchange_failure offline (MkWorld empty_db (Some "old") (Some 5) 7 0))
    as (w1 & Hrun & Htoken & _).
  - intros (t & x & _ & _ & [= <-] & _ & Hnow). simpl in Hnow. lia.
  - done.
  - by exists w1.
Defined.

(** A successful exchange stores the token with the expiry
    [now + expires_in * 1000 - 60000]; when the token is not empty and
    lives longer than the 60 seconds of margin, the next call returns it
    from the cache without another exchange. *)
Theorem token_refresh_then_reuse (e : Env) (w : World) (t : string) (s : Z) :
  ~ cache_valid w (Date_now e (tick w)) ->
  token_endpoint e (tick w) = Body {| access_token := Some t; expires_in := Some s |} ->
  t <> "" -> 60 < s ->
  Date_now e (S (tick w)) + s * 1000 - 60000 <> 0 ->
  exists w1,
    getSpotifyAccessToken e w = (Returned (Some t), w1)
    /\ spotifyAccessToken w1 = Some t
    /\ tokenExpiry w1 = Some (Date_now e (S (tick w)) + s * 1000 - 60000)
    /\ tick w1 = S (tick w)
    /\ getSpotifyAccessToken e w1 = (Returned (Some t), w1).
Proof.
  intros Hvalid Hbody Ht Hs Hx. rewrite getSpotifyAccessToken_miss by done.
  rewrite Hbody. simpl. eexists. split; [reflexivity |].
  repeat split. rewrite getSpotifyAccessToken_hit; [done |].
  exists t, (Date_now e (S (tick w)) + s * 1000 - 60000).
  repeat split; try done. simpl. lia.
Qed.

Lemma token_refresh_then_reuse_witness :
  exists w1,
    getSpotifyAccessToken features_down fresh = (Returned (Some "BQD"), w1)
    /\ getSpotifyAccessToken features_down w1 = (Returned (Some "BQD"), w1).
Proof.
  destruct (token_refresh_then_reuse features_down fresh "BQD" 3600)
    as (w1 & Hrun & _ & _ & _ & Hagain); try done.
  - by intros (t & x & [=] & _).
  - by exists w1.
Defined.

(** ** What the provider's answers become *)

(** When the search answers with tracks, [verifyWithSpotify] reports the
    first track, with its first artist. *)
Theorem verifyWithSpotify_first_track (e : Env) (songName artistName : string)
    (w w1 : World) (token : string) (track : Track) (rest : list Track)
    (first_artist : string) (others : list string) :
  getSpotifyAccessToken e w = (Returned (Some token), w1) ->
  token <> "" ->
  search_endpoint e (search_query songName artistName) (tick w1) = Body (track :: rest) ->
  track_artists track = first_artist :: others ->
  verifyWithSpotify e songName artistName w
  = (Returned (Some (SpotifyData.Make (track_name track) first_artist (track_id track)
                       (track_popularity track) (track_preview_url track))),
     next_tick w1).
Proof.
  intros Htoken Hne Hsearch Hartists. apply String.eqb_neq in Hne.
  unfold verifyWithSpotify, try_catch, bind at 1. rewrite Htoken.
  unfold Js.truthy. rewrite Hne. cbn [negb].
  unfold await, bind, gets, modify, search_query in *. simpl.
  rewrite Hsearch. simpl. by rewrite Hartists.
Qed.

Lemma verifyWithSpotify_first_track_witness :
  (verifyWithSpotify features_down "yesterday" "beatles" fresh).1
  = Returned (Some (SpotifyData.Make "Yesterday" "The Beatles" "3BQHpFgAp4l80e1XslIjNI"
                      80 None)).
Proof.
  pose proof (eq_refl : getSpotifyAccessToken features_down fresh
                        = (Returned (Some "BQD"),
                           (getSpotifyAccessToken features_down fresh).2)) as Htoken.
  by rewrite (verifyWithSpotify_first_track features_down "yesterday" "beatles" fresh _
                "BQD" yesterday [] "The Beatles" [] Htoken).
Defined.



(** ** The braces of a completion *)

Lemma through_last_close_none (s : string) :
  OpenAI.through_last_close s = None <-> occurs "}" s = false.
Proof.
  induction s as [| c s IH]; simpl; [done |].
  destruct (OpenAI.through_last_close s) as [m |].
  - split; [done |]. intros [_ H]%orb_false_iff. by apply IH in H.
  - destruct (Ascii.eqb c "}"); simpl; [done |]. split; [intros _; by apply IH | done].
Qed.

Lemma through_last_close_some (s m : string) :
  OpenAI.through_last_close s = Some m
  <-> exists body post,
        s = body ++ "}" ++ post /\ m = body ++ "}" /\ occurs "}" post = false.
Proof.
  revert m. induction s as [| c s IH]; intros m; simpl.
  - split; [done |]. intros ([| ? ?] & post & [=] & _).
  - destruct (OpenAI.through_last_close s) as [m1 |] eqn:Hs.
    + split.
      * intros [= <-]. destruct (proj1 (IH m1) eq_refl) as (body & post & -> & -> & Hpost).
        by exists (String c body), post.
      * intros ([| c' body] & post & Heq & -> & Hpost); simpl in Heq.
        { injection Heq as -> ->. apply through_last_close_none in Hpost.
          change ("" +:+ post) with post in *. congruence. }
        injection Heq as <- ->. f_equal. simpl. f_equal.
        assert (Some m1 = Some (body ++ "}")) as [= ->]; [| done].
        apply IH. by exists body, post.
    + apply through_last_close_none in Hs.
      destruct (Ascii.eqb_spec c "}") as [-> | Hc].
      * split.
        { intros [= <-]. by exists "", s. }
        intros ([| c' body] & post & Heq & -> & Hpost); simpl in Heq; [done |].
        injection Heq as <- ->.
        assert (occurs "}" (body ++ "}" ++ post) = true) as Hin; [| congruence].
        clear. induction body as [| x body IHb]; simpl; [done |].
        by rewrite IHb, orb_true_r.
      * split; [done |].
        intros ([| c' body] & post & Heq & -> & Hpost); simpl in Heq.
        { by injection Heq as -> _. }
        injection Heq as <- ->.
        assert (occurs "}" (body ++ "}" ++ post) = true) as Hin; [| congruence].
        clear. induction body as [| x body IHb]; simpl; [done |].
        by rewrite IHb, orb_true_r.
Qed.

Lemma from_first_open_some (s t : string) :
  OpenAI.from_first_open s = Some t
  <-> exists pre rest, s = pre ++ t /\ t = String "{" rest /\ occurs "{" pre = false.
Proof.
  induction s as [| c s IH]; simpl.
  - split; [done |]. intros ([| ? ?] & rest & Heq & -> & _); simpl in Heq; done.
  - destruct (Ascii.eqb_spec c "{") as [-> | Hc].
    + split.
      * intros [= <-]. by exists "", s.
      * intros ([| c' pre] & rest & Heq & -> & Hpre); simpl in *.
        { by rewrite Heq. }
        injection Heq as <- _. by rewrite Ascii.eqb_refl in Hpre.
    + rewrite IH. split.
      * intros (pre & rest & -> & -> & Hpre). exists (String c pre), rest.
        repeat split. simpl. rewrite Hpre.
        by destruct (Ascii.eqb_spec c "{").
      * intros ([| c' pre] & rest & Heq & -> & Hpre); simpl in *.
        { by injection Heq as -> _. }
        injection Heq as <- ->. apply orb_false_iff in Hpre as [_ Hpre].
        by exists pre, rest.
Qed.

(** The text taken out of a completion before decoding runs from the
    first opening brace to the last closing brace after it: it starts
    with one and ends with the other, no opening brace comes before it
    and no closing brace after it; a completion that is an object
    literal from end to end is taken whole. *)
Theorem match_braces_spec (s m : string) :
  (OpenAI.match_braces s = Some m
   <-> exists pre body post,
         s = pre ++ "{" ++ body ++ "}" ++ post
         /\ m = "{" ++ body ++ "}"
         /\ occurs "{" pre = false /\ occurs "}" post = false)
  /\ (forall body,
        OpenAI.match_braces ("{" ++ body ++ "}") = Some ("{" ++ body ++ "}")).
Proof.
  assert (forall s m,
    OpenAI.match_braces s = Some m
    <-> exists pre body post,
          s = pre ++ "{" ++ body ++ "}" ++ post
          /\ m = "{" ++ body ++ "}"
          /\ occurs "{" pre = false /\ occurs "}" post = false) as Hspec.
  { clear. intros s m. unfold OpenAI.match_braces. split.
    - destruct (OpenAI.from_first_open s) as [t |] eqn:Ht; [| done].
      apply from_first_open_some in Ht as (pre & rest & -> & -> & Hpre).
      intros (body & post & Heq & -> & Hpost)%through_last_close_some.
      destruct body as [| c body]; simpl in Heq; [done |].
      injection Heq as <- ->. by exists pre, body, post.
    - intros (pre & body & post & -> & -> & Hpre & Hpost).
      assert (OpenAI.from_first_open (pre ++ "{" ++ body ++ "}" ++ post)
              = Some ("{" ++ body ++ "}" ++ post)) as ->.
      { apply from_first_open_some. by exists pre, (body ++ "}" ++ post). }
      apply through_last_close_some. by exists (String "{" body), post. }
  split; [apply Hspec |].
  intros body. apply Hspec. by exists "", body, "".
Qed.

Lemma match_braces_spec_witness :
  OpenAI.match_braces "Sure! {bpm: 97} Enjoy." = Some "{bpm: 97}".
Proof.
  apply (match_braces_spec "Sure! {bpm: 97} Enjoy." "{bpm: 97}").
  by exists "Sure! ", "bpm: 97", " Enjoy.".
Defined.

(** * Song suggestions *)


Lemma map_tracks_returned (m : gmap string Suggestion.features)
    (tracks : list Suggestion.track) (w : World) ss w' :
  map_tracks (suggest m) tracks w = (Returned ss, w') ->
  Forall2 (fun s t =>
             Suggestion.album t = Some (Suggestion.albumName s)
             /\ s = Suggestion.Make (Suggestion.name t) (join (Suggestion.artists t))
                      (Suggestion.albumName s) (Suggestion.id t)
                      (Suggestion.features_bpm <$> m !! Suggestion.id t)
                      (m !! Suggestion.id t ≫= Suggestion.features_key))
    ss tracks.
Proof.
  revert ss w'. induction tracks as [| t tracks IH]; intros ss w'; simpl.
  - intros [= <- _]. constructor.
  - unfold bind, suggest at 1.
    destruct (Suggestion.album t) as [a |] eqn:Ha; simpl; [| done].
    destruct (map_tracks (suggest m) tracks w) as [[ss' | x] w1] eqn:Hrest; [| done].
    intros [= <- _]. constructor; [by rewrite Ha | by eapply IH].
Qed.




Lemma fill_features_lookup (ids : list string) :
  NoDup ids ->
  forall fs k m i id,
    ids !! i = Some id ->
    (k + length fs <= length ids)%nat ->
    fill_features ids k fs m !! id
    = if decide (k <= i)%nat
      then match features_entry (mjoin (fs !! (i - k)%nat)) with
           | Some v => Some v
           | None => m !! id
           end
      else m !! id.
Proof.
  intros Hnodup. induction fs as [| f fs IH]; intros k m i id Hi Hlen; simpl.
  - by case_decide.
  - simpl in Hlen. rewrite (IH (S k) _ i id Hi) by lia.
    destruct (lookup_lt_is_Some_2 ids k) as [idk Hk]; [lia |].
    rewrite Hk. simpl.
    assert (k <> i -> idk <> id) as Hne.
    { intros Hki ->. apply Hki. by eapply NoDup_lookup. }
    destruct (decide (S k <= i)%nat) as [Hlt | Hge].
    + rewrite decide_True by lia.
      replace (i - k)%nat with (S (i - S k)) by lia. simpl.
      destruct (features_entry (mjoin (fs !! (i - S k)%nat))); [done |].
      destruct (features_entry f); [| done]. rewrite lookup_insert_ne; [done | apply Hne; lia].
    + destruct (decide (k <= i)%nat) as [Hle | Hgt].
      * assert (i = k) as -> by lia. rewrite Nat.sub_diag. simpl.
        assert (idk = id) as -> by congruence.
        destruct (features_entry f); [by rewrite lookup_insert_eq | done].
      * destruct (features_entry f); [| done].
        rewrite lookup_insert_ne; [done | apply Hne; lia].
Qed.

Lemma map_tracks_albums (m : gmap string Suggestion.features)
    (tracks : list Suggestion.track) (w : World) :
  Forall (fun t => is_Some (Suggestion.album t)) tracks ->
  map_tracks (suggest m) tracks w
  = (Returned ((fun t => Suggestion.Make (Suggestion.name t) (join (Suggestion.artists t))
                           (default "" (Suggestion.album t)) (Suggestion.id t)
                           (Suggestion.features_bpm <$> m !! Suggestion.id t)
                           (m !! Suggestion.id t ≫= Suggestion.features_key)) <$> tracks),
     w).
Proof.
  induction 1 as [| t tracks [a Ha] _ IH]; [done |].
  simpl. unfold bind, suggest at 1. rewrite Ha. simpl. by rewrite IH.
Qed.

(** With a token, a query that is not blank and a search that answers
    with tracks of distinct ids, each with its album, the route answers
    one suggestion per track, in the order of the tracks, that carries
    the name, the artists joined by a comma, the album and the id of its
    track, and the bpm and key found at the same position of the
    audio-features answer; when that second call fails, or has nothing
    for the position, bpm and key are null and the answer is still a
    success. *)
Theorem get_suggestions_found search_tracks several_features (e : Env)
    (query token : string) (tracks : list Suggestion.track) (w w0 : World) :
  Js.trim query <> "" ->
  getSpotifyAccessToken e w = (Returned (Some token), w0) ->
  token <> "" ->
  search_tracks (Js.trim query) (tick w0) = Body (Some tracks) ->
  Forall (fun t => is_Some (Suggestion.album t)) tracks ->
  NoDup (Suggestion.id <$> tracks) ->
  (forall fs, several_features (Suggestion.id <$> tracks) (S (tick w0)) = Body (Some fs) ->
     (length fs <= length tracks)%nat) ->
  get_suggestions search_tracks several_features e (Some query) w
  = (Returned (SuggestionsFound
       (imap (fun i t =>
                let found := features_at
                               (several_features (Suggestion.id <$> tracks) (S (tick w0))) i in
                Suggestion.Make (Suggestion.name t) (join (Suggestion.artists t))
                  (default "" (Suggestion.album t)) (Suggestion.id t)
                  (Suggestion.features_bpm <$> found)
                  (found ≫= Suggestion.features_key))
             tracks)),
     next_tick (next_tick w0)).
Proof.
  intros Hq Htoken Hne Hsearch Halbums Hnodup Hlen.
  assert (query <> "") as Hquery by (by intros ->).
  apply String.eqb_neq in Hquery, Hne.
  unfold get_suggestions, Js.truthy at 1. rewrite Hquery.
  change (str (Some query)) with query.
  destruct (Nat.eqb_spec (String.length (Js.trim query)) 0) as [Hzero | _].
  { destruct (Js.trim query); [done | discriminate]. }
  cbn [negb orb]. unfold try_catch at 1. unfold bind at 1. rewrite Htoken.
  unfold Js.truthy. rewrite Hne. cbn [negb].
  unfold bind at 1. unfold await at 1, bind, gets, modify. simpl. rewrite Hsearch. simpl.
  set (h := several_features (Suggestion.id <$> tracks) (S (tick w0))) in *.
  set (m := match h with
            | Body (Some fs) => fill_features (Suggestion.id <$> tracks) 0 fs ∅
            | _ => ∅
            end).
  assert (forall i t, tracks !! i = Some t -> m !! Suggestion.id t = features_at h i)
    as Hat.
  { intros i t Hi. subst m. unfold features_at.
    destruct h as [x | | [fs |]] eqn:Hh; try apply lookup_empty.
    rewrite (fill_features_lookup _ Hnodup fs 0 ∅ i (Suggestion.id t)).
    - rewrite decide_True by lia. rewrite Nat.sub_0_r, lookup_empty.
      by destruct (features_entry (mjoin (fs !! i))).
    - by rewrite list_lookup_fmap, Hi.
    - rewrite length_fmap. simpl. by apply Hlen. }
  match goal with |- context [try_catch ?b ?hd (next_tick w0)] =>
    assert (try_catch b hd (next_tick w0) = (Returned m, next_tick (next_tick w0)))
      as Hmap
  end.
  { unfold try_catch, await, bind, gets, modify, ret. simpl. fold h. subst m.
    by destruct h as [x | | [fs |]]. }
  rewrite Hmap, map_tracks_albums by done. unfold ret. do 3 f_equal.
  apply list_eq. intros i. rewrite list_lookup_fmap, list_lookup_imap.
  destruct (tracks !! i) as [t |] eqn:Hi; [| done]. simpl.
  by rewrite (Hat i t Hi).
Qed.

Lemma get_suggestions_found_witness :
  get_suggestions search_two features_of_second online (Some " pressure") fresh
  = (Returned (SuggestionsFound
       [Suggestion.Make "Yesterday" "The Beatles" "Help!" "3BQHpFgAp4l80e1XslIjNI"
          None None;
        Suggestion.Make "Under Pressure" "Queen, David Bowie" "Hot Space"
          "2fuCquhmrzHpu5xcA1ci9x" (Some 114) (Some "10A")]),
     next_tick (next_tick (getSpotifyAccessToken online fresh).2)).
Proof.
  rewrite (get_suggestions_found search_two features_of_second online " pressure" "BQD"
             two_tracks fresh (getSpotifyAccessToken online fresh).2).
  - reflexivity.
  - by vm_compute.
  - reflexivity.
  - done.
  - reflexivity.
  - repeat constructor; by eexists.
  - compute_done.
  - intros fs [= <-]. simpl. lia.
Defined.

(** * The submit of the OpenAI revision *)

Lemma OpenAI_prop_preserves_db (v : OpenAI.Json) (k : string) :
  preserves_db (OpenAI.prop v k).
Proof. destruct v; simpl; auto with effects. Qed.

Lemma OpenAI_enhanceSongData_preserves_db parse e songName artist :
  preserves_db (OpenAI.enhanceSongData parse e songName artist).
Proof.
  unfold OpenAI.enhanceSongData.
  apply preserves_db_try_catch; [| auto with effects].
  apply preserves_db_bind.
  - unfold OpenAI.create_completion.
    apply preserves_db_bind; [auto with effects | intros r].
    apply preserves_db_bind; [auto with effects | intros _].
    destruct r; auto with effects.
  - intros content. case_match; [| auto with effects].
    repeat (apply preserves_db_bind; [apply OpenAI_prop_preserves_db | intros ?]).
    auto with effects.
Qed.

Lemma update_older_rows (d : OpenAI.Enhanced) (submissionId : Z)
    (rows : list ServerJs.row) :
  Forall (fun r => ServerJs.id r < submissionId) rows ->
  (fun r => if decide (ServerJs.id r = submissionId) then ServerJs.set_enhanced d r else r)
    <$> rows = rows.
Proof.
  induction 1 as [| r rows Hr _ IH]; [done |].
  rewrite fmap_cons, IH. by rewrite decide_False by lia.
Qed.

(** In the OpenAI revision a submit with song and artist is acknowledged
    with the next row id whatever the completion does, and once the
    background enhancement has run the table holds the rows it had,
    unchanged, followed by one new row that keeps the submitted song and
    artist as originals; when the completion fails or cannot be decoded
    that row still shows the submitted song and artist, with null bpm and
    keys. A submit without song or artist is a 400 that writes nothing
    and asks for no completion. The row ids are assumed not to exceed
    the sequence. *)
Theorem server_js_submit (parse : string -> option OpenAI.Json) (e : Env)
    (songName artist : string) (userName : option string)
    (t : ServerJs.Table) (w : World) :
  songName <> "" -> artist <> "" ->
  Forall (fun r => ServerJs.id r <= ServerJs.seq t) (ServerJs.rows t) ->
  (exists new w1,
     ServerJs.post_submit parse e (Some songName) (Some artist) userName t w
     = (Returned (ServerJs.Saved "Submission saved successfully" (ServerJs.seq t + 1),
                  ServerJs.MkTable (ServerJs.rows t ++ [new]) (ServerJs.seq t + 1)), w1)
     /\ ServerJs.id new = ServerJs.seq t + 1
     /\ ServerJs.original_song_name new = songName
     /\ ServerJs.original_artist new = artist
     /\ ServerJs.user_name new = Js.or_null userName
     /\ db w1 = db w
     /\ (no_decoded_value parse (chat_completions e songName artist (S (tick w))) ->
         ServerJs.song_name new = OpenAI.JStr songName
         /\ ServerJs.artist new = OpenAI.JStr artist
         /\ ServerJs.bpm new = OpenAI.JNull
         /\ ServerJs.key_camelot new = OpenAI.JNull
         /\ ServerJs.key_regular new = OpenAI.JNull))
  /\ (forall missing,
        ServerJs.post_submit parse e None missing userName t w
        = (Returned (ServerJs.Rejected 400 "Song name and artist are required", t), w)
        /\ ServerJs.post_submit parse e missing None userName t w
           = (Returned (ServerJs.Rejected 400 "Song name and artist are required", t), w)).
Proof.
  intros Hsong Hartist Hids. split.
  2: { intros missing. unfold ServerJs.post_submit. simpl.
       by rewrite orb_true_r. }
  apply String.eqb_neq in Hsong, Hartist.
  unfold ServerJs.post_submit, Js.truthy. rewrite Hsong, Hartist. cbn [negb orb].
  change (str (Some songName)) with songName. change (str (Some artist)) with artist.
  unfold bind at 1, ServerJs.insert. cbn [fst snd].
  set (new := ServerJs.Row (ServerJs.seq t + 1) (OpenAI.JStr songName) (OpenAI.JStr artist)
                (Js.or_null userName) songName artist OpenAI.JNull OpenAI.JNull
                OpenAI.JNull (CURRENT_TIMESTAMP e (tick w))).
  pose proof (OpenAI_enhanceSongData_returns parse e songName artist) as Hret.
  destruct (returns_run _ (next_tick w) Hret) as [d Hd].
  destruct (OpenAI_enhanceSongData_preserves_db parse e songName artist (next_tick w))
    as [Hdb _].
  exists (ServerJs.set_enhanced d new), (OpenAI.enhanceSongData parse e songName artist
                                           (next_tick w)).2.
  split.
  - unfold bind, try_catch, ret. rewrite Hd. cbn [fst snd]. do 3 f_equal.
    unfold ServerJs.update. cbn [ServerJs.rows ServerJs.seq]. f_equal.
    rewrite fmap_app, update_older_rows.
    + simpl. by rewrite decide_True by done.
    + eapply Forall_impl; [exact Hids |]. intros r Hr. simpl in Hr. lia.
  - do 4 (split; [reflexivity |]). split; [exact Hdb |].
    intros Hno.
    rewrite (OpenAI_enhanceSongData_original parse e songName artist (next_tick w) Hno)
      in Hd.
    injection Hd as <-. done.
Qed.

Lemma server_js_submit_witness :
  exists w1,
    ServerJs.post_submit (fun _ => None) offline (Some "yesterday") (Some "beatles") None
      (ServerJs.MkTable [] 0) fresh
    = (Returned (ServerJs.Saved "Submission saved successfully" 1,
                 ServerJs.MkTable
                   [ServerJs.Row 1 (OpenAI.JStr "yesterday") (OpenAI.JStr "beatles") None
                      "yesterday" "beatles" OpenAI.JNull OpenAI.JNull OpenAI.JNull
                      "2025-01-01 00:00:00"] 1), w1).
Proof.
  destruct (server_js_submit (fun _ => None) offline "yesterday" "beatles" None
              (ServerJs.MkTable [] 0) fresh) as [(new & w1 & Hrun & _) _];
    [done | done | constructor |].
  exists w1. rewrite Hrun. do 3 f_equal.
  assert ((ServerJs.post_submit (fun _ => None) offline (Some "yesterday")
             (Some "beatles") None (ServerJs.MkTable [] 0) fresh).1
          = Returned (ServerJs.Saved "Submission saved successfully" 1,
                 ServerJs.MkTable
                   [ServerJs.Row 1 (OpenAI.JStr "yesterday") (OpenAI.JStr "beatles") None
                      "yesterday" "beatles" OpenAI.JNull OpenAI.JNull OpenAI.JNull
                      "2025-01-01 00:00:00"] 1)) as Hval by reflexivity.
  rewrite Hrun in Hval. simpl in Hval. by injection Hval as ->.
Defined.

(** * More on the multi-tenant server *)

Lemma get_sessions_active_newest_first_witness :
  exists rows,
    get_sessions two_parties = (Returned (Json 200 (SessionList rows)), two_parties)
    /\ party "CD34" "Wedding" ∈ rows.
Proof.
  destruct (get_sessions_active_newest_first two_parties) as (rows & Hrun & Hin & _).
  exists rows. split; [exact Hrun |].
  apply Hin. split; [done |]. by exists "CD34".
Defined.

(** A submit that carries a Spotify id stores what the audio-features
    lookup returned, bpm and both keys, and null for all three when the
    lookup returned nothing; either way the row is flagged as fetched. *)
Theorem post_submit_enriched (e : Env) (songName artist sessionId spotifyId : string)
    (userName : option string) (session : Sessions.row) (w w0 : World)
    (audioFeatures : option AudioFeatures.t) :
  songName <> "" -> artist <> "" -> sessionId <> "" -> spotifyId <> "" ->
  sessions (db w) !! sessionId = Some session ->
  getSpotifyAudioFeatures e spotifyId w = (Returned audioFeatures, w0) ->
  exists w1,
    post_submit e (Some songName) (Some artist) userName (Some sessionId)
      (Some spotifyId) w
    = (Returned (Json 200 (SubmissionSaved "Submission saved successfully"
                             (seq (db w) + 1))), w1)
    /\ submissions (db w1)
       = (submissions (db w)
          ++ [Submissions.Row (seq (db w) + 1) sessionId songName artist
                (Js.or_null userName) (Some songName) (Some artist)
                (audioFeatures ≫= AudioFeatures.bpm)
                (audioFeatures ≫= AudioFeatures.key_camelot)
                (audioFeatures ≫= AudioFeatures.key_regular)
                1 (CURRENT_TIMESTAMP e (tick w0))])%list.
Proof.
  intros Hsong Hartist Hid Hspot Hs Hfetch.
  apply String.eqb_neq in Hsong, Hartist, Hid, Hspot.
  destruct (getSpotifyAudioFeatures_preserves_db e spotifyId w) as [Hdb _].
  rewrite Hfetch in Hdb. simpl in Hdb.
  unfold post_submit, Js.truthy. rewrite Hsong, Hartist, Hid, Hspot.
  cbn [negb orb]. change (str (Some sessionId)) with sessionId.
  change (str (Some songName)) with songName. change (str (Some artist)) with artist.
  change (str (Some spotifyId)) with spotifyId.
  unfold bind at 1. rewrite select_session_run, Hs.
  unfold bind at 1, try_catch, bind at 1. rewrite Hfetch.
  destruct audioFeatures as [af |]; unfold ret, bind, insert_submission, next_tick, set_db;
    cbn -[Z.add]; rewrite Hdb; by eexists.
Qed.

Lemma post_submit_enriched_witness :
  exists w1,
    post_submit online (Some "yesterday") (Some "beatles") None (Some "AB12")
      (Some "3BQHpFgAp4l80e1XslIjNI") two_parties
    = (Returned (Json 200 (SubmissionSaved "Submission saved successfully" 4)), w1)
    /\ Submissions.bpm <$> last (submissions (db w1)) = Some (Some 97)
    /\ Submissions.key_camelot <$> last (submissions (db w1)) = Some (Some "7A").
Proof.
  destruct (post_submit_enriched online "yesterday" "beatles" "AB12"
              "3BQHpFgAp4l80e1XslIjNI" None (party "AB12" "Friday Mixer") two_parties
              (getSpotifyAudioFeatures online "3BQHpFgAp4l80e1XslIjNI" two_parties).2
              (Some (AudioFeatures.Make (Some 97) (Some "F major") (Some "7A"))))
    as (w1 & Hrun & Hrows); [done .. | reflexivity | reflexivity |].
  exists w1. split; [exact Hrun |]. by rewrite Hrows.
Defined.



(** ** Sessions are kept in order *)

Lemma handle_sessions_in_order (e : Env) (r : Request) (w : World) o w1 :
  handle e r w = (o, w1) -> sessions_in_order (db w) -> sessions_in_order (db w1).
Proof.
  destruct r; simpl; intros Hrun Hok.
  - apply post_sessions_outcome in Hrun
      as [[_ ->] | [[_ Hdb] | (id & k & Hid & Hfree & Htrim & _ & ->)]];
      [done | by rewrite Hdb |].
    unfold sessions_in_order, next_tick, set_db. cbn [db sessions]. intros id' row.
    destruct (decide (id = id')) as [<- | Hne].
    + rewrite lookup_insert_eq. by intros [= <-].
    + rewrite lookup_insert_ne by done. apply Hok.
  - by apply get_session_sessions in Hrun as [-> _].
  - by apply get_sessions_sessions in Hrun as [-> _].
  - apply post_submit_sessions in Hrun as [Hs _]. unfold sessions_in_order.
    by rewrite Hs.
  - by apply get_submissions_sessions in Hrun as [-> _].
  - apply delete_clear_sessions in Hrun as [Hs _]. unfold sessions_in_order.
    by rewrite Hs.
  - unfold post_update_settings in Hrun.
    destruct (negb (Js.truthy sessionId)); injection Hrun as <- <-; [done |].
    unfold sessions_in_order, set_db. cbn [db sessions]. intros id row.
    destruct (decide (str sessionId = id)) as [<- | Hne].
    + rewrite lookup_alter_eq.
      destruct (sessions (db w) !! str sessionId) as [row0 |] eqn:Hrow; [| done].
      intros [= <-]. by apply Hok in Hrow.
    + rewrite lookup_alter_ne by done. apply Hok.
  - by apply get_settings_sessions in Hrun as [-> _].
  - by apply get_code_sessions in Hrun as [-> _].
Qed.

(** Starting from the empty store, whatever requests are served, every
    session stays filed under its own, non-empty id with a name that is
    not empty, and stays active: no route removes or deactivates a
    session, so the list of sessions shows them all. *)
Theorem reachable_sessions_in_order (e : Env) (rs : list Request) os w' :
  serve e rs fresh = (os, w') ->
  (forall id row,
     sessions (db w') !! id = Some row ->
     Sessions.id row = id /\ id <> "" /\ Sessions.name row <> ""
     /\ Sessions.is_active row = 1)
  /\ exists rows,
       get_sessions w' = (Returned (Json 200 (SessionList rows)), w')
       /\ forall id row, sessions (db w') !! id = Some row -> row ∈ rows.
Proof.
  intros Hrun.
  assert (sessions_in_order (db w')) as Hok.
  { assert (sessions_in_order (db fresh)) as H0 by (by intros id row).
    revert Hrun H0. generalize fresh. revert os w'.
    induction rs as [| r rs IH]; intros os w' w; simpl.
    - by intros [= <- <-].
    - destruct (handle e r w) as [o w1] eqn:Hr.
      destruct (serve e rs w1) as [os' w2] eqn:Hrs. intros [= <- <-] Hw.
      eapply IH; [exact Hrs |]. by eapply handle_sessions_in_order. }
  split; [exact Hok |]. eexists. split; [reflexivity |].
  intros id row Hrow. rewrite merge_sort_Permutation, list_elem_of_filter.
  split; [by apply Hok in Hrow as (_ & _ & _ & ?) |].
  apply list_elem_of_fmap. exists (id, row). split; [done |].
  by apply elem_of_map_to_list.
Qed.

Lemma reachable_sessions_in_order_witness :
  exists os w',
    serve features_down
      [PostSessions (Some "Friday Mixer");
       PostUpdateSettings (Some "ABCD") None None (Some "#fff")] fresh = (os, w')
    /\ (Sessions.name <$> sessions (db w') !! "ABCD") = Some "Friday Mixer"
    /\ (Sessions.is_active <$> sessions (db w') !! "ABCD") = Some 1.
Proof.
  destruct (serve features_down _ fresh) as [os w'] eqn:Hrun.
  exists os, w'. split; [reflexivity |].
  destruct (reachable_sessions_in_order features_down _ os w' Hrun) as [Hok _].
  assert (exists row, sessions (db w') !! "ABCD" = Some row
                      /\ Sessions.name row = "Friday Mixer") as (row & Hrow & Hname).
  { vm_compute in Hrun. injection Hrun as _ <-. by eexists. }
  rewrite Hrow. simpl. destruct (Hok "ABCD" row Hrow) as (_ & _ & _ & ->).
  by rewrite Hname.
Defined.
